(** * openmm_ramd: the log analysis driver [analyze_log.py]

    A shallow embedding of [openmm_ramd/analyze/analyze_log.py] and the
    properties of its orchestration: the loop that merges the log files,
    the xi binner, the calls into the [parser], [milestoning] and
    [sigma_ramd] modules, and the command line.

    Conventions of the embedding.
    - A Python [float] is the rational number it denotes ([Q]); comparisons
      are [Qle_bool] and [Qeq_bool].  Rounding, infinities and NaN are not
      represented: [np.linspace] yields the exact grid points.  That every
      value of [[-1, 1]] finds a bin does not rest on this: it holds for any
      points between a first [-1] and a last [1] ([any_grid_covers]).
    - A Python [int] is a [Z].
    - An exception is a value of [exn]; code that may raise returns a
      [result].
    - The functions of the modules [parser], [milestoning] and [sigma_ramd]
      and [print] are calls of a program tree ([prog]); a handler supplies
      what they return, and running a program records every call with its
      arguments.
    - The builtin [int] behind [type=int] is a parameter of the command
      line parser, a function from strings to integers that is undefined
      where [int] raises [ValueError]; nothing is assumed of it. *)

From Stdlib Require Import QArith Qfield Lqa Ascii String.
From stdpp Require Import base list strings numbers gmap.

Local Open Scope Z_scope.

(** ** Exceptions and results *)

Inductive exn : Type :=
  | ValueError            (* numpy: a negative number of samples or dimension *)
  | UnboundLocalError     (* a local variable read before any assignment *)
  | TypeError             (* arithmetic on [None] *)
  | IndexError            (* subscript out of range *)
  | KeyError (key : string)
  | AssertionError (msg : string)
  | Exception_xi_not_placed (traj_xi : Q)
                          (* [Exception(f"xi value {traj_xi} not placed in bin.")] *)
  | SystemExit (code : Z) (* argparse rejecting the command line *)
  | Raised (what : string).   (* whatever a called module raises *)

Inductive result (A : Type) : Type :=
  | Ok (a : A)
  | Raise (e : exn).
Arguments Ok {A} a.
Arguments Raise {A} e.

#[global] Instance result_ret : MRet result := @Ok.
#[global] Instance result_bind : MBind result := λ A B f m,
  match m with
  | Ok a => f a
  | Raise e => Raise e
  end.

Definition is_Ok {A} (r : result A) : Prop := ∃ a, r = Ok a.

(** [l[i]] for a non-negative index. *)
Definition subscript {A} (l : list A) (i : nat) : result A :=
  match l !! i with
  | Some x => Ok x
  | None => Raise IndexError
  end.

(** [range(n)] for a Python int [n]: empty when [n <= 0]. *)
Definition range (n : Z) : list nat := seq 0 (Z.to_nat n).

(** ** numpy *)

(** [np.linspace(start, stop, num)] with the default [endpoint=True], for
    scalar end points, following numpy's implementation: [arange(0, num)]
    scaled by [step = delta / div] and shifted by [start], the last sample
    overwritten by [stop]. *)
Definition np_linspace (start stop : Q) (num : Z) : result (list Q) :=
  if num <? 0 then Raise ValueError
  else
    let div := num - 1 in
    let delta := (stop - start)%Q in
    let y : list Q := (λ i : nat, inject_Z (Z.of_nat i)) <$> range num in
    let y : list Q :=
      if 0 <? div then
        let step := (delta / inject_Z div)%Q in
        if Qeq_bool step 0
        then (λ yi, (yi / inject_Z div) * delta)%Q <$> y
        else (λ yi, yi * step)%Q <$> y
      else (λ yi, yi * delta)%Q <$> y in
    let y : list Q := (λ yi, yi + start)%Q <$> y in
    Ok (if 1 <? num then <[(Z.to_nat num - 1)%nat := stop]> y else y).

(** ** Data model *)

(** One sample of a condensed trajectory: [[cv, xi]]. *)
Definition frame : Type := Q * Q.
Definition fragment : Type := list frame.
Definition matrix : Type := list (list Q).
Definition vector : Type := list Q.

(** [trajectory[0][1]] *)
Definition first_xi (trajectory : fragment) : result Q :=
  fr ← subscript trajectory 0; Ok (fr.2).

(** ** The xi binner (lines 59-74) *)

(** The inner loop [for j in range(num_xi_bins)]: the index of the first
    interval with [traj_xi >= xi_bins_ranges[j] and traj_xi <=
    xi_bins_ranges[j+1]], [None] when the loop ends with [found_bin] still
    false.  [and] evaluates its right operand only when the left one holds. *)
Fixpoint scan_bins (xi_bins_ranges : list Q) (traj_xi : Q) (js : list nat)
  : result (option nat) :=
  match js with
  | [] => Ok None
  | j :: js' =>
      lo ← subscript xi_bins_ranges j;
      if Qle_bool lo traj_xi then
        hi ← subscript xi_bins_ranges (j + 1);
        if Qle_bool traj_xi hi then Ok (Some j)
        else scan_bins xi_bins_ranges traj_xi js'
      else scan_bins xi_bins_ranges traj_xi js'
  end.

Definition find_bin (xi_bins_ranges : list Q) (num_xi_bins : Z) (traj_xi : Q)
  : result (option nat) :=
  scan_bins xi_bins_ranges traj_xi (range num_xi_bins).

(** [xi_bins[j].append(trajectory)] *)
Definition append_to_bin (xi_bins : list (list fragment)) (j : nat)
    (trajectory : fragment) : result (list (list fragment)) :=
  b ← subscript xi_bins j; Ok (<[j := b ++ [trajectory]]> xi_bins).

(** The outer loop [for i, trajectory in enumerate(one_dim_trajs)]. *)
Fixpoint bin_loop (xi_bins_ranges : list Q) (num_xi_bins : Z)
    (one_dim_trajs : list fragment) (xi_bins : list (list fragment))
  : result (list (list fragment)) :=
  match one_dim_trajs with
  | [] => Ok xi_bins
  | trajectory :: rest =>
      traj_xi ← first_xi trajectory;
      found ← find_bin xi_bins_ranges num_xi_bins traj_xi;
      match found with
      | Some j =>
          xi_bins' ← append_to_bin xi_bins j trajectory;
          bin_loop xi_bins_ranges num_xi_bins rest xi_bins'
      | None => Raise (Exception_xi_not_placed traj_xi)
      end
  end.

(** [xi_bins = []; for j in range(num_xi_bins): xi_bins.append([])] followed
    by the binning loop. *)
Definition bin_trajectories (xi_bins_ranges : list Q) (num_xi_bins : Z)
    (one_dim_trajs : list fragment) : result (list (list fragment)) :=
  bin_loop xi_bins_ranges num_xi_bins one_dim_trajs
           ((λ _, []) <$> range num_xi_bins).

(** Line 25 followed by lines 59-74: the binner on its own. *)
Definition xi_binner (num_xi_bins : Z) (one_dim_trajs : list fragment)
  : result (list (list fragment)) :=
  xi_bins_ranges ← np_linspace (-1) 1 (num_xi_bins + 1);
  bin_trajectories xi_bins_ranges num_xi_bins one_dim_trajs.

(** [np.zeros((d0, d1, d2))] as nested lists; a negative dimension raises. *)
Definition np_zeros3 (d0 d1 d2 : Z) : result (list matrix) :=
  if (d0 <? 0) || (d1 <? 0) || (d2 <? 0) then Raise ValueError
  else Ok (replicate (Z.to_nat d0)
             (replicate (Z.to_nat d1) (replicate (Z.to_nat d2) 0%Q))).

(** [a == b] where [a] is a local that may still hold [None]. *)
Definition eq_int (a : option Z) (b : Z) : bool :=
  match a with Some x => x =? b | None => false end.
Definition eq_float (a : option Q) (b : Q) : bool :=
  match a with Some x => Qeq_bool x b | None => false end.

(** [timeStep * forceOutFreq]: float times int; [None] is no operand. *)
Definition mul_float_int (a : option Q) (b : option Z) : result Q :=
  match a, b with
  | Some x, Some n => Ok (x * inject_Z n)%Q
  | _, _ => Raise TypeError
  end.

(** ** Vocabulary for the binner *)

(** The sample [j] of [np.linspace(-1.0, 1.0, n + 1)], as numpy computes
    it. *)
Definition edge (n : Z) (j : nat) : Q :=
  if decide (j = Z.to_nat n) then 1%Q
  else (inject_Z (Z.of_nat j) * ((1 - -1) / inject_Z n) + -1)%Q.

(** [traj_xi] passes the membership test of interval [j]. *)
Definition in_bin (xi_bins_ranges : list Q) (traj_xi : Q) (j : nat) : Prop :=
  ∃ lo hi,
    xi_bins_ranges !! j = Some lo ∧ xi_bins_ranges !! (j + 1)%nat = Some hi
    ∧ (lo <= traj_xi)%Q ∧ (traj_xi <= hi)%Q.

(** The bin a fragment goes to, when its first frame has one. *)
Definition bin_index (xi_bins_ranges : list Q) (num_xi_bins : Z)
    (trajectory : fragment) : option nat :=
  match first_xi trajectory ≫= find_bin xi_bins_ranges num_xi_bins with
  | Ok (Some j) => Some j
  | _ => None
  end.

(** A fragment the scan places: its first frame exists and falls in some
    interval. *)
Definition placed (ranges : list Q) (n : Z) (t : fragment) : Prop :=
  ∃ xi j, first_xi t = Ok xi ∧ find_bin ranges n xi = Ok (Some j)
          ∧ (j < Z.to_nat n)%nat.

(** The point [-1 + 2 j / n]: edge [j] of [n] equal intervals of
    [[-1, 1]]. *)
Definition grid_point (n : Z) (j : nat) : Q :=
  (inject_Z (Z.of_nat j) * (2 / inject_Z n) - 1)%Q.

(** ** Programs over the imported modules *)

Section Program.

(** What the log parser calls a trajectory (positions and force vectors of
    one segment) and the object built by [sigma_ramd] are opaque to
    [analyze_log]. *)
Context {Traj Calc : Type}.

(** What [analyze_log] prints. *)
Inductive message : Type :=
  | Using_milestones (num_milestones : Z)
  | Using_angle_bins (num_xi_bins : Z)
  | Number_of_trajectories (n : nat)
  | Show_forceOutFreq (v : option Z)
  | Show_forceRAMD (v : option Q)
  | Show_timeStep (v : option Q)
  | Num_in_bin (i : nat) (n : nat)
  | Show_time_estimate (time_estimate : Q).

(** The functions [analyze_log] calls outside its own file, indexed by what
    they return. *)
Inductive call : Type → Type :=
  | print (m : message) : call unit
  | parse_ramd_log_file (ramd_log_filename : string)
      : call (list Traj * Z * Q * Q)
  | condense_trajectories (trajectories : list Traj) : call (list fragment)
  | uniform_milestone_locations (one_dim_trajs : list fragment)
      (num_milestones : Z) : call (list Q * Q * Q * Q)
  | make_milestoning_model (xi_bin_trajs : list fragment)
      (milestones : list Q) (frame_time : Q) (num_milestones : Z)
      : call (matrix * vector * matrix * matrix)
  | make_time_profiles (transition_matrix : matrix) (time_vector : vector)
      (num_milestones : Z) : call matrix
  | functional_expansion_1d_ramd (xi_bin_time_profiles : list matrix)
      (force_constant : option Q) (beta min_cv_val max_cv_val
      starting_cv_val : Q) : call Calc
  | make_second_order_time_estimate (calc : Calc) : call Q.

Inductive prog (R : Type) : Type :=
  | Return (r : R)
  | Throw (e : exn)
  | Call {X : Type} (c : call X) (k : X → prog R).
Arguments Return {R} r.
Arguments Throw {R} e.
Arguments Call {R X} c k.

Fixpoint prog_bind {A B} (f : A → prog B) (p : prog A) : prog B :=
  match p with
  | Return a => f a
  | Throw e => Throw e
  | Call c k => Call c (λ x, prog_bind f (k x))
  end.

#[global] Instance prog_ret : MRet prog := @Return.
#[global] Instance prog_mbind : MBind prog := @prog_bind.

Definition do {X} (c : call X) : prog X := Call c Return.

Definition lift {A} (r : result A) : prog A :=
  match r with
  | Ok a => Return a
  | Raise e => Throw e
  end.

Definition when (b : bool) (p : prog unit) : prog unit :=
  if b then p else Return ().

(** [assert b, msg] *)
Definition py_assert (b : bool) (msg : string) : prog unit :=
  if b then Return () else Throw (AssertionError msg).

(** [for x in l: s = body x s] *)
Fixpoint for_each {A S} (l : list A) (body : A → S → prog S) (s : S)
  : prog S :=
  match l with
  | [] => Return s
  | x :: l' => s' ← body x s; for_each l' body s'
  end.

(** *** Running a program *)

(** What each call returns, or the exception it raises. *)
Definition handler : Type := ∀ X, call X → result X.

Definition event : Type := { X : Type & call X }.
Definition Event {X} (c : call X) : event := existT X c.

(** The calls made, in order, and the outcome. *)
Fixpoint run {R} (h : handler) (p : prog R) : list event * result R :=
  match p with
  | Return r => ([], Ok r)
  | Throw e => ([], Raise e)
  | Call c k =>
      match h _ c with
      | Ok x => let '(t, r) := run h (k x) in (Event c :: t, r)
      | Raise e => ([Event c], Raise e)
      end
  end.

(** *** [analyze_log] *)

(** The locals of the loop over the log files.  [trajectories] is unbound
    until the first iteration assigns it. *)
Record locals : Type := Locals {
  trajectory_list : list Traj;
  forceOutFreq : option Z;
  forceRAMD : option Q;
  timeStep : option Q;
  trajectories : option (list Traj)
}.

Definition initial_locals : locals :=
  {| trajectory_list := []; forceOutFreq := None; forceRAMD := None;
     timeStep := None; trajectories := None |}.

(** Reading a local that may be unbound. *)
Definition read_local {A} (v : option A) : prog A :=
  match v with
  | Some a => Return a
  | None => Throw UnboundLocalError
  end.

(** The body of [for ramd_log_filename in ramd_log_file_list] (lines 31-42). *)
Definition merge_log (ramd_log_filename : string) (st : locals)
  : prog locals :=
  '(trajectories_, forceOutFreq_, forceRAMD_, timeStep_) ←
    do (parse_ramd_log_file ramd_log_filename);
  st' ←
    match forceOutFreq st with
    | None =>
        Return {| trajectory_list := trajectory_list st;
                  forceOutFreq := Some forceOutFreq_;
                  forceRAMD := Some forceRAMD_;
                  timeStep := Some timeStep_;
                  trajectories := Some trajectories_ |}
    | Some _ =>
        py_assert (eq_int (forceOutFreq st) forceOutFreq_)
          "RAMD logs contain differing forceOutFreq values.";;
        py_assert (eq_float (forceRAMD st) forceRAMD_)
          "RAMD logs contain differing forceRAMD values.";;
        py_assert (eq_float (timeStep st) timeStep_)
          "RAMD logs contain differing timeStep values.";;
        Return {| trajectory_list := trajectory_list st;
                  forceOutFreq := forceOutFreq st;
                  forceRAMD := forceRAMD st;
                  timeStep := timeStep st;
                  trajectories := Some trajectories_ |}
    end;
  Return {| trajectory_list := trajectory_list st' ++ trajectories_;
            forceOutFreq := forceOutFreq st';
            forceRAMD := forceRAMD st';
            timeStep := timeStep st';
            trajectories := trajectories st' |}.

(** The body of [for i in range(num_xi_bins)] (lines 79-88).  The array
    [xi_bin_time_profiles] is the list of its [num_xi_bins] matrices, and
    the slice assignment of line 88 replaces matrix [i]. *)
Definition model_bin (verbose : bool) (xi_bins : list (list fragment))
    (milestones : list Q) (frame_time : Q) (num_milestones : Z)
    (i : nat) (xi_bin_time_profiles : list matrix) : prog (list matrix) :=
  when verbose (
    b ← lift (subscript xi_bins i);
    do (print (Num_in_bin i (length b))));;
  xi_bin_trajs ← lift (subscript xi_bins i);
  '(count_matrix, time_vector, rate_matrix, transition_matrix) ←
    do (make_milestoning_model xi_bin_trajs milestones frame_time
          num_milestones);
  time_profile_matrix ←
    do (make_time_profiles transition_matrix time_vector num_milestones);
  Return (<[i := time_profile_matrix]> xi_bin_time_profiles).

Definition analyze_log (ramd_log_file_list : list string)
    (num_milestones num_xi_bins : Z) (verbose : bool) : prog unit :=
  when verbose (
    do (print (Using_milestones num_milestones));;
    do (print (Using_angle_bins num_xi_bins)));;
  xi_bins_ranges ← lift (np_linspace (-1) 1 (num_xi_bins + 1));
  st ← for_each ramd_log_file_list merge_log initial_locals;
  when verbose (
    do (print (Number_of_trajectories (length (trajectory_list st))));;
    do (print (Show_forceOutFreq (forceOutFreq st)));;
    do (print (Show_forceRAMD (forceRAMD st)));;
    do (print (Show_timeStep (timeStep st))));;
  trajectories_ ← read_local (trajectories st);
  one_dim_trajs ← do (condense_trajectories trajectories_);
  '(milestones, min_location, max_location, starting_cv_val) ←
    do (uniform_milestone_locations one_dim_trajs num_milestones);
  xi_bins ← lift (bin_trajectories xi_bins_ranges num_xi_bins one_dim_trajs);
  frame_time ← lift (mul_float_int (timeStep st) (forceOutFreq st));
  xi_bin_time_profiles ←
    lift (np_zeros3 num_xi_bins num_milestones num_milestones);
  xi_bin_time_profiles ←
    for_each (range num_xi_bins)
      (model_bin verbose xi_bins milestones frame_time num_milestones)
      xi_bin_time_profiles;
  let beta := 0%Q in
  calc ← do (functional_expansion_1d_ramd xi_bin_time_profiles
               (forceRAMD st) beta min_location max_location
               starting_cv_val);
  time_estimate ← do (make_second_order_time_estimate calc);
  do (print (Show_time_estimate time_estimate)).

(** *** Vocabulary for runs *)

Implicit Types h : handler.

(** Every call of the run of [p] satisfies [P], and what [p] returns, when
    it returns, satisfies [Q]. *)
Definition hoare {R} h (P : event → Prop) (p : prog R) (Q : R → Prop) : Prop :=
  Forall P (run h p).1 ∧ ∀ r, (run h p).2 = Ok r → Q r.

(** The trajectories the parser returns for a file. *)
Definition parsed_trajectories h (f : string) : list Traj :=
  match h _ (parse_ramd_log_file f) with
  | Ok (trajs, _, _, _) => trajs
  | Raise _ => []
  end.

(** The file reports the metadata [(fof, fr, ts)], as [==] compares them. *)
Definition consistent h (fof : Z) (fr ts : Q) (f : string) : Prop :=
  ∃ trajs fof' fr' ts',
    h _ (parse_ramd_log_file f) = Ok (trajs, fof', fr', ts')
    ∧ fof' = fof ∧ (fr' == fr)%Q ∧ (ts' == ts)%Q.

(** The calls of the parser on [files], in order. *)
Definition parse_events (files : list string) : list event :=
  (λ f, Event (parse_ramd_log_file f)) <$> files.

(** The locals after one more file, of trajectories [trajs], has passed the
    asserts. *)
Definition merged (st : locals) (trajs : list Traj) : locals :=
  {| trajectory_list := trajectory_list st ++ trajs;
     forceOutFreq := forceOutFreq st;
     forceRAMD := forceRAMD st;
     timeStep := timeStep st;
     trajectories := Some trajs |}.

(** The three metadata locals are bound, to [fof], [fr] and [ts]. *)
Definition metadata_is (st : locals) (fof : Z) (fr ts : Q) : Prop :=
  forceOutFreq st = Some fof ∧ forceRAMD st = Some fr ∧ timeStep st = Some ts.

(** The locals after the files [files] have been merged into [st]. *)
Definition merged_all h (st : locals) (files : list string)
  : locals :=
  {| trajectory_list :=
       trajectory_list st ++ concat (parsed_trajectories h <$> files);
     forceOutFreq := forceOutFreq st;
     forceRAMD := forceRAMD st;
     timeStep := timeStep st;
     trajectories :=
       match last files with
       | Some f => Some (parsed_trajectories h f)
       | None => trajectories st
       end |}.

(** The calls of the loading phase. *)
Definition parse_or_print (e : event) : bool :=
  match e with
  | existT _ (print _) | existT _ (parse_ramd_log_file _) => true
  | _ => false
  end.

(** [print] does not raise. *)
Definition prints_return h : Prop := ∀ m, h _ (print m) = Ok ().

(** The file reports a value that [==] tells from [(fof, fr, ts)]. *)
Definition differs h (fof : Z) (fr ts : Q) (f : string) : Prop :=
  ∃ trajs fof' fr' ts',
    h _ (parse_ramd_log_file f) = Ok (trajs, fof', fr', ts')
    ∧ (fof' ≠ fof ∨ ¬ (fr' == fr)%Q ∨ ¬ (ts' == ts)%Q).

(** What the loop over the files leaves in the locals when it completes. *)
Definition loaded h (files : list string) (st : locals) : Prop :=
  trajectory_list st = concat (parsed_trajectories h <$> files)
  ∧ trajectories st = parsed_trajectories h <$> last files
  ∧ match files with
    | [] => forceOutFreq st = None ∧ forceRAMD st = None ∧ timeStep st = None
    | f0 :: rest =>
        ∃ trajs0 fof fr ts,
          h _ (parse_ramd_log_file f0) = Ok (trajs0, fof, fr, ts)
          ∧ metadata_is st fof fr ts
          ∧ Forall (consistent h fof fr ts) rest
    end.

(** What a call hands to the module it enters. *)
Definition beta_of (e : event) : option Q :=
  match e with
  | existT _ (functional_expansion_1d_ramd _ _ beta _ _ _) => Some beta
  | _ => None
  end.

Definition model_call_of (e : event)
  : option (list fragment * list Q * Q * Z) :=
  match e with
  | existT _ (make_milestoning_model xi_bin_trajs milestones frame_time
                num_milestones) =>
      Some (xi_bin_trajs, milestones, frame_time, num_milestones)
  | _ => None
  end.

Definition frame_time_of (e : event) : option Q :=
  (λ c, c.1.2) <$> model_call_of e.

Definition condenser_input (e : event) : option (list Traj) :=
  match e with
  | existT _ (condense_trajectories trajs) => Some trajs
  | _ => None
  end.

Definition grid_input (e : event) : option (list fragment) :=
  match e with
  | existT _ (uniform_milestone_locations one_dim_trajs _) =>
      Some one_dim_trajs
  | _ => None
  end.

(** The first file reports [(fof, fr, ts)] and every later file agrees. *)
Definition run_metadata h (files : list string) (fof : Z) (fr ts : Q)
  : Prop :=
  ∃ f0 rest trajs0,
    files = f0 :: rest
    ∧ h _ (parse_ramd_log_file f0) = Ok (trajs0, fof, fr, ts)
    ∧ Forall (consistent h fof fr ts) rest.

(** What [analyze_log] prints before the loop over the files, and after
    it. *)
Definition header (num_milestones num_xi_bins : Z) (verbose : bool)
  : list event :=
  if verbose then [Event (print (Using_milestones num_milestones));
                   Event (print (Using_angle_bins num_xi_bins))]
  else [].

Definition report (n : nat) (fof : option Z) (fr ts : option Q)
    (verbose : bool) : list event :=
  if verbose then [Event (print (Number_of_trajectories n));
                   Event (print (Show_forceOutFreq fof));
                   Event (print (Show_forceRAMD fr));
                   Event (print (Show_timeStep ts))]
  else [].

(** What one iteration of the loop over the bins works with: the fragments
    of the bin, what the model builder returned for them, and the time
    profile matrix. *)
Definition bin_result : Type :=
  list fragment * (matrix * vector * matrix * matrix) * matrix.

(** The calls of iteration [i]. *)
Definition bin_trace (verbose : bool) (milestones : list Q) (frame_time : Q)
    (num_milestones : Z) (i : nat) (s : bin_result) : list event :=
  let '(xi_bin_trajs, (_, time_vector, _, transition_matrix), _) := s in
  (if verbose then [Event (print (Num_in_bin i (length xi_bin_trajs)))]
   else [])
  ++ [Event (make_milestoning_model xi_bin_trajs milestones frame_time
               num_milestones);
      Event (make_time_profiles transition_matrix time_vector
               num_milestones)].

(** Iteration [i] has taken bin [i], and the two modules returned what [s]
    records. *)
Definition bin_step h (xi_bins : list (list fragment)) (milestones : list Q)
    (frame_time : Q) (num_milestones : Z) (i : nat) (s : bin_result)
  : Prop :=
  let '(xi_bin_trajs, (count_matrix, time_vector, rate_matrix,
                       transition_matrix), time_profile_matrix) := s in
  xi_bins !! i = Some xi_bin_trajs
  ∧ h _ (make_milestoning_model xi_bin_trajs milestones frame_time
           num_milestones)
    = Ok (count_matrix, time_vector, rate_matrix, transition_matrix)
  ∧ h _ (make_time_profiles transition_matrix time_vector num_milestones)
    = Ok time_profile_matrix.

Definition printed (e : event) : option message :=
  match e with
  | existT _ (print m) => Some m
  | _ => None
  end.

(** The profile builder returns [num_milestones] rows of [num_milestones]
    entries: the shape with which the slice assignment of line 88 copies
    the matrix as it is, neither broadcasting nor raising. *)
Definition profiles_fit h : Prop :=
  ∀ transition_matrix time_vector num_milestones time_profile_matrix,
    h _ (make_time_profiles transition_matrix time_vector num_milestones)
    = Ok time_profile_matrix →
    length time_profile_matrix = Z.to_nat num_milestones
    ∧ Forall (λ row, length row = Z.to_nat num_milestones)
        time_profile_matrix.





End Program.

Arguments call : clear implicits.
Arguments prog : clear implicits.
Arguments handler : clear implicits.
Arguments event : clear implicits.
Arguments locals : clear implicits.
Arguments Return {Traj Calc R} r.
Arguments Throw {Traj Calc R} e.
Arguments Call {Traj Calc R X} c k.

(** ** The command line (lines 99-118) *)

(** The value of an ASCII decimal digit, and of a string of them. *)
Definition digit_of (a : ascii) : option Z :=
  let n := nat_of_ascii a in
  if ((48 <=? n) && (n <=? 57))%nat then Some (Z.of_nat (n - 48)) else None.

Fixpoint digits (s : string) (acc : Z) : option Z :=
  match s with
  | EmptyString => Some acc
  | String a s' => d ← digit_of a; digits s' (10 * acc + d)
  end.

(** The value of an ASCII decimal literal with an optional sign.  It serves
    to tell the negative numbers among the tokens with a leading dash
    (argparse's [_negative_number_matcher], [^-\d+$], on ASCII tokens).  The
    conversion [type=int] of an operand is not this function but the
    parameter [int] of the parser below. *)
Definition int_of_string (s : string) : option Z :=
  match s with
  | EmptyString => None
  | String "-"%char EmptyString | String "+"%char EmptyString => None
  | String "-"%char s' => Z.opp <$> digits s' 0
  | String "+"%char s' => digits s' 0
  | _ => digits s 0
  end.

(** A value stored in the namespace. *)
Inductive value : Type :=
  | V_int (n : Z)
  | V_strs (l : list string).

(** One [add_argument]: a positional has no option strings and, here,
    [nargs="+"] and [type=str]; an option takes one [type=int] operand. *)
Record argument : Type := Argument {
  option_strings : list string;
  dest : string;
  arg_default : option value
}.

Definition argparser : list argument :=
  [ {| option_strings := []; dest := "ramdLogFiles"; arg_default := None |};
    {| option_strings := ["-n"; "--numMilestones"]; dest := "numMilestones";
       arg_default := Some (V_int 10) |};
    {| option_strings := ["-a"; "--numAngleBins"]; dest := "numAngleBins";
       arg_default := Some (V_int 5) |} ].

Definition find_option (decls : list argument) (tok : string)
  : option argument :=
  list_find (λ a, tok ∈ option_strings a) decls ≫= λ ia, Some ia.2.

Definition dashed (tok : string) : bool :=
  match tok with
  | String "-"%char _ => true
  | _ => false
  end.

(** A token argparse takes for an option: it starts with a dash and is no
    negative number. *)
Definition looks_like_option (tok : string) : bool :=
  dashed tok && (if int_of_string tok is Some _ then false else true).

(** The scan of the command line: options with their operand in the next
    token, and one run of positionals; a positional after that run has been
    left is an unrecognized argument.  The operand of an option is a token
    that is not taken for an option, and [type=int] applies the builtin
    [int] to it: [int] is a parameter, [None] where the builtin raises
    [ValueError].  Every rejection is argparse's exit with status 2. *)
Fixpoint parse_loop (int : string → option Z) (decls : list argument)
    (argv : list string) (ns : gmap string value) (files : list string)
    (closed : bool) : result (gmap string value * list string) :=
  match argv with
  | [] => Ok (ns, files)
  | tok :: rest =>
      match find_option decls tok with
      | Some a =>
          match rest with
          | v :: rest' =>
              if looks_like_option v then Raise (SystemExit 2)
              else
                match int v with
                | Some n =>
                    parse_loop int decls rest' (<[dest a := V_int n]> ns)
                      files (if files is [] then false else true)
                | None => Raise (SystemExit 2)
                end
          | [] => Raise (SystemExit 2)
          end
      | None =>
          if looks_like_option tok || closed then Raise (SystemExit 2)
          else parse_loop int decls rest ns (files ++ [tok]) false
      end
  end.

Definition defaults (decls : list argument) : gmap string value :=
  foldr (λ a ns, if arg_default a is Some v then <[dest a := v]> ns else ns)
        ∅ decls.

(** [vars(argparser.parse_args())] for a parser with one positional
    [nargs="+"] argument. *)
Definition parse_args (int : string → option Z) (decls : list argument)
    (positional : string) (argv : list string)
  : result (gmap string value) :=
  '(ns, files) ← parse_loop int decls argv (defaults decls) [] false;
  if files is [] then Raise (SystemExit 2)
  else Ok (<[positional := V_strs files]> ns).

(** [args[key]] *)
Definition getitem (args : gmap string value) (key : string) : result value :=
  match args !! key with
  | Some v => Ok v
  | None => Raise (KeyError key)
  end.

Definition as_int (v : value) : result Z :=
  match v with V_int n => Ok n | _ => Raise TypeError end.
Definition as_strs (v : value) : result (list string) :=
  match v with V_strs l => Ok l | _ => Raise TypeError end.

(** A call that leaves out the keyword parameters takes the defaults of the
    signature (line 20). *)
Definition analyze_log_call {Traj Calc} (ramd_log_file_list : list string)
    (num_milestones num_xi_bins : option Z) (verbose : option bool)
  : prog Traj Calc unit :=
  analyze_log ramd_log_file_list (default 10 num_milestones)
    (default 5 num_xi_bins) (default true verbose).

(** The [__main__] block run on [sys.argv[1:]], with the builtin [int]. *)
Definition main {Traj Calc} (int : string → option Z) (argv : list string)
  : prog Traj Calc unit :=
  args ← lift (parse_args int argparser "ramdLogFiles" argv);
  ramdLogFiles ← lift (getitem args "ramdLogFiles" ≫= as_strs);
  numMilestones ← lift (getitem args "numMilestones" ≫= as_int);
  numAngleBins ← lift (getitem args "numAngleBins" ≫= as_int);
  analyze_log_call ramdLogFiles (Some numMilestones) (Some numAngleBins) None.

(** ** A sample installation

    Three log files and stand-ins for the modules, to run the driver on:
    [a.log] and [b.log] report the same metadata, [c.log] another
    [forceRAMD]; no other file exists.  A raw trajectory is a number [t],
    condensed to two frames at [xi = (t - 2) / 2]. *)
Module Demo.

Definition parse (f : string) : result (list nat * Z * Q * Q) :=
  if String.eqb f "a.log" then Ok ([1; 2]%nat, 50, 14%Q, (2 # 1000)%Q)
  else if String.eqb f "b.log" then Ok ([3]%nat, 50, 14%Q, (2 # 1000)%Q)
  else if String.eqb f "c.log" then Ok ([4]%nat, 50, 15%Q, (2 # 1000)%Q)
  else Raise (Raised "FileNotFoundError").

Definition condense (t : nat) : fragment :=
  let cv := inject_Z (Z.of_nat t) in
  let xi := ((cv - 2) / 2)%Q in
  [(cv, xi); ((cv + 1)%Q, xi)].

(** The four trajectories condensed: xi = -1/2, 0, 1/2 and 1. *)
Definition one_dim_trajs : list fragment :=
  condense <$> [1; 2; 3; 4]%nat.

Definition h : handler nat unit := λ X c,
  match c in call _ _ X return result X with
  | print _ => Ok ()
  | parse_ramd_log_file f => parse f
  | condense_trajectories trajs => Ok (condense <$> trajs)
  | uniform_milestone_locations _ _ => Ok ([1; 2; 3; 4]%Q, 1%Q, 4%Q, 1%Q)
  | make_milestoning_model _ _ _ _ => Ok ([], [], [], [])
  | make_time_profiles _ _ _ => Ok []
  | functional_expansion_1d_ramd _ _ _ _ _ _ => Ok ()
  | make_second_order_time_estimate _ => Ok 7%Q
  end.

(** The same installation with time profile matrices of the shape line 88
    expects. *)
Definition h_fit : handler nat unit := λ X c,
  match c in call _ _ X return result X with
  | make_time_profiles _ _ num_milestones =>
      Ok (replicate (Z.to_nat num_milestones)
            (replicate (Z.to_nat num_milestones) 1%Q))
  | c => h _ c
  end.

End Demo.

(** * Proofs *)

(** ** The grid of [np.linspace] *)

Lemma subscript_Ok {A} (l : list A) i x : l !! i = Some x → subscript l i = Ok x.
Proof. unfold subscript. by intros ->. Qed.

Lemma length_range n : length (range n) = Z.to_nat n.
Proof. apply length_seq. Qed.

Lemma step_nonzero n : 1 ≤ n → Qeq_bool ((1 - -1) / inject_Z n) 0 = false.
Proof.
  intros Hn. destruct (Qeq_bool _ _) eqn:E; [|done].
  apply Qeq_bool_eq in E.
  assert (Hn' : (0 < inject_Z n)%Q).
  { change 0%Q with (inject_Z 0). rewrite <- Zlt_Qlt. lia. }
  assert (H2 : ((1 - -1) / inject_Z n * inject_Z n == 1 - -1)%Q).
  { field. lra. }
  rewrite E in H2. lra.
Qed.

Lemma linspace_bins n :
  1 ≤ n →
  ∃ ranges, np_linspace (-1) 1 (n + 1) = Ok ranges
    ∧ length ranges = S (Z.to_nat n)
    ∧ ∀ j, (j ≤ Z.to_nat n)%nat → ranges !! j = Some (edge n j).
Proof.
  intros Hn. unfold np_linspace.
  replace (n + 1 - 1) with n by lia.
  destruct (Z.ltb_spec (n + 1) 0); [lia|].
  destruct (Z.ltb_spec 0 n); [|lia].
  destruct (Z.ltb_spec 1 (n + 1)); [|lia].
  rewrite step_nonzero by done.
  eexists; split; [done|]. split.
  - rewrite length_insert, !length_fmap, length_range. lia.
  - intros j Hj. unfold edge. case_decide as Hd.
    + subst j. replace (Z.to_nat (n + 1) - 1)%nat with (Z.to_nat n) by lia.
      apply list_lookup_insert_eq.
      rewrite !length_fmap, length_range. lia.
    + rewrite list_lookup_insert_ne by lia.
      rewrite !list_lookup_fmap. unfold range.
      rewrite lookup_seq_lt by lia. done.
Qed.

Lemma inject_Z_pos n : 1 ≤ n → (0 < inject_Z n)%Q.
Proof. intros. change 0%Q with (inject_Z 0). rewrite <- Zlt_Qlt. lia. Qed.

Lemma edge_val n j :
  1 ≤ n → (j ≤ Z.to_nat n)%nat →
  (edge n j == inject_Z (Z.of_nat j) * (2 / inject_Z n) - 1)%Q.
Proof.
  intros Hn Hj. pose proof (inject_Z_pos n Hn) as Hp.
  unfold edge. case_decide as Hd.
  - subst j. rewrite Z2Nat.id by lia. field. lra.
  - field. lra.
Qed.

Lemma edge_first n : 1 ≤ n → (edge n 0 == -1)%Q.
Proof.
  intros Hn. rewrite edge_val by (done || lia).
  pose proof (inject_Z_pos n Hn). simpl. field. lra.
Qed.

Lemma edge_last n : edge n (Z.to_nat n) = 1%Q.
Proof. unfold edge. by rewrite decide_True. Qed.

Lemma edge_lt n i j :
  1 ≤ n → (i < j ≤ Z.to_nat n)%nat → (edge n i < edge n j)%Q.
Proof.
  intros Hn Hij. rewrite !edge_val by (done || lia).
  pose proof (inject_Z_pos n Hn) as Hp.
  assert (Hs : (0 < 2 / inject_Z n)%Q).
  { apply Qlt_shift_div_l; lra. }
  assert (Hz : (inject_Z (Z.of_nat i) < inject_Z (Z.of_nat j))%Q).
  { rewrite <- Zlt_Qlt. lia. }
  pose proof (Qmult_lt_compat_r _ _ _ Hs Hz). lra.
Qed.

Lemma edge_le n i j :
  1 ≤ n → (i ≤ j ≤ Z.to_nat n)%nat → (edge n i <= edge n j)%Q.
Proof.
  intros Hn Hij. destruct (decide (i = j)) as [->|]; [apply Qle_refl|].
  apply Qlt_le_weak, edge_lt; [done|lia].
Qed.


Lemma edge_bounds n j :
  1 ≤ n → (j ≤ Z.to_nat n)%nat → (-1 <= edge n j <= 1)%Q.
Proof.
  intros Hn Hj. split.
  - rewrite <- (edge_first n Hn). apply edge_le; [done|lia].
  - rewrite <- (edge_last n). apply edge_le; [done|lia].
Qed.

(** ** The scan for a bin *)

Lemma Qle_bool_false x y : Qle_bool x y = false → (y < x)%Q.
Proof.
  intros H. apply Qnot_le_lt. intros Hle.
  apply Qle_bool_iff in Hle. congruence.
Qed.

Lemma scan_bins_seq ranges xi a k :
  (a + k < length ranges)%nat →
  (∃ j, scan_bins ranges xi (seq a k) = Ok (Some j)
        ∧ (a ≤ j < a + k)%nat ∧ in_bin ranges xi j
        ∧ ∀ i, (a ≤ i < j)%nat → ¬ in_bin ranges xi i)
  ∨ (scan_bins ranges xi (seq a k) = Ok None
        ∧ ∀ i, (a ≤ i < a + k)%nat → ¬ in_bin ranges xi i).
Proof.
  revert a. induction k as [|k IH]; intros a Hlen.
  { right. split; [done|]. intros i ?. lia. }
  destruct (lookup_lt_is_Some_2 ranges a) as [lo Hlo]; [lia|].
  destruct (lookup_lt_is_Some_2 ranges (a + 1)%nat) as [hi Hhi]; [lia|].
  assert (Hrest :
    ¬ in_bin ranges xi a →
    (∃ j, scan_bins ranges xi (seq (S a) k) = Ok (Some j)
        ∧ (a ≤ j < a + S k)%nat ∧ in_bin ranges xi j
        ∧ ∀ i, (a ≤ i < j)%nat → ¬ in_bin ranges xi i)
    ∨ (scan_bins ranges xi (seq (S a) k) = Ok None
        ∧ ∀ i, (a ≤ i < a + S k)%nat → ¬ in_bin ranges xi i)).
  { intros Hna. destruct (IH (S a)) as [(j & Hs & Hj & Hin & Hmin)|[Hs Hno]];
      [lia|left|right].
    - exists j. split_and!; [done|lia|lia|done|].
      intros i Hi. destruct (decide (i = a)) as [->|]; [done|].
      apply Hmin. lia.
    - split; [done|]. intros i Hi.
      destruct (decide (i = a)) as [->|]; [done|]. apply Hno. lia. }
  simpl. rewrite (subscript_Ok _ _ _ Hlo). simpl.
  destruct (Qle_bool lo xi) eqn:E1.
  - rewrite (subscript_Ok _ _ _ Hhi). simpl.
    destruct (Qle_bool xi hi) eqn:E2.
    + left. exists a. split_and!; [done|lia|lia| |intros i; lia].
      exists lo, hi. split_and!; try done; by apply Qle_bool_iff.
    + apply Hrest. intros (lo' & hi' & ? & ? & ? & Hle). simplify_eq.
      apply Qle_bool_false in E2. lra.
  - apply Hrest. intros (lo' & hi' & ? & ? & Hle & ?). simplify_eq.
    apply Qle_bool_false in E1. lra.
Qed.

(** [find_bin] returns the least interval that contains the value. *)
Lemma find_bin_Some ranges n xi j :
  (Z.to_nat n < length ranges)%nat →
  find_bin ranges n xi = Ok (Some j) ↔
  (j < Z.to_nat n)%nat ∧ in_bin ranges xi j
    ∧ ∀ i, (i < j)%nat → ¬ in_bin ranges xi i.
Proof.
  intros Hlen. unfold find_bin, range.
  destruct (scan_bins_seq ranges xi 0 (Z.to_nat n))
    as [(j' & Hs & Hj & Hin & Hmin)|[Hs Hno]]; [lia| |]; rewrite Hs.
  - split.
    + intros [= <-]. split_and!; [lia|done|]. intros i ?. apply Hmin. lia.
    + intros (Hj2 & Hin2 & Hmin2). do 2 f_equal.
      destruct (Nat.lt_trichotomy j j') as [?|[?|?]]; [|done|].
      * destruct (Hmin j); [lia|done].
      * destruct (Hmin2 j'); [lia|done].
  - split; [done|]. intros (Hj & Hin & _). destruct (Hno j); [lia|done].
Qed.

Lemma find_bin_None ranges n xi :
  (Z.to_nat n < length ranges)%nat →
  find_bin ranges n xi = Ok None ↔
  ∀ i, (i < Z.to_nat n)%nat → ¬ in_bin ranges xi i.
Proof.
  intros Hlen. unfold find_bin, range.
  destruct (scan_bins_seq ranges xi 0 (Z.to_nat n))
    as [(j' & Hs & Hj & Hin & Hmin)|[Hs Hno]]; [lia| |]; rewrite Hs.
  - split; [done|]. intros Hno. destruct (Hno j'); [lia|done].
  - split; [|done]. intros _ i ?. apply Hno. lia.
Qed.

Lemma find_bin_total ranges n xi :
  (Z.to_nat n < length ranges)%nat →
  ∃ r, find_bin ranges n xi = Ok r.
Proof.
  intros Hlen. unfold find_bin, range.
  destruct (scan_bins_seq ranges xi 0 (Z.to_nat n))
    as [(j' & Hs & _)|[Hs _]]; [lia| |]; eauto.
Qed.

(** ** The binning loop *)

Lemma placed_bin_index ranges n t :
  placed ranges n t → ∃ j, bin_index ranges n t = Some j ∧ (j < Z.to_nat n)%nat.
Proof.
  intros (xi & j & Hx & Hf & Hj). exists j. split; [|done].
  unfold bin_index. rewrite Hx. simpl. by rewrite Hf.
Qed.

Lemma concat_insert_snoc {A} (bins : list (list A)) j b x :
  bins !! j = Some b → concat (<[j := b ++ [x]]> bins) ≡ₚ concat bins ++ [x].
Proof.
  revert j. induction bins as [|b0 bins IH]; intros [|j] Hj; simplify_eq/=.
  - rewrite <- !(assoc_L (++)). f_equiv. apply Permutation_app_comm.
  - rewrite IH by done. by rewrite (assoc_L (++)).
Qed.

Lemma bin_loop_Ok ranges n frags bins0 :
  length bins0 = Z.to_nat n →
  Forall (placed ranges n) frags →
  ∃ bins, bin_loop ranges n frags bins0 = Ok bins
    ∧ length bins = Z.to_nat n
    ∧ concat bins ≡ₚ concat bins0 ++ frags
    ∧ ∀ j b0, bins0 !! j = Some b0 →
        bins !! j
        = Some (b0 ++ filter (λ t, bin_index ranges n t = Some j) frags).
Proof.
  intros Hlen Hall. revert bins0 Hlen.
  induction Hall as [|t rest Ht _ IH]; intros bins0 Hlen.
  { exists bins0. split_and!; [done|done|by rewrite app_nil_r|].
    intros j b0 ->. by rewrite app_nil_r. }
  destruct (placed_bin_index _ _ _ Ht) as (j1' & Hbi & _).
  destruct Ht as (xi & j1 & Hx & Hf & Hj1).
  assert (j1' = j1) as ->.
  { unfold bin_index in Hbi. rewrite Hx in Hbi. simpl in Hbi.
    rewrite Hf in Hbi. by simplify_eq. }
  destruct (lookup_lt_is_Some_2 bins0 j1) as [b1 Hb1]; [lia|].
  destruct (IH (<[j1 := b1 ++ [t]]> bins0)) as (bins & Hrun & Hl & Hperm & Hbins).
  { by rewrite length_insert. }
  exists bins. split_and!; [|done| |].
  - simpl. rewrite Hx. simpl. rewrite Hf. simpl.
    unfold append_to_bin. rewrite (subscript_Ok _ _ _ Hb1). simpl. done.
  - rewrite Hperm, concat_insert_snoc by done.
    by rewrite <- (assoc_L (++)).
  - intros j b0 Hb0. destruct (decide (j = j1)) as [->|Hne].
    + assert (b0 = b1) as -> by congruence. rewrite (Hbins j1 (b1 ++ [t])).
      * rewrite filter_cons_True by done. by rewrite <- (assoc_L (++)).
      * apply list_lookup_insert_eq. by eapply lookup_lt_Some.
    + rewrite (Hbins j b0).
      * rewrite filter_cons_False; [done|]. rewrite Hbi. congruence.
      * by rewrite list_lookup_insert_ne.
Qed.

Lemma bin_loop_inv ranges n frags bins0 bins :
  bin_loop ranges n frags bins0 = Ok bins →
  Forall (λ t, ∃ xi j, first_xi t = Ok xi
                       ∧ find_bin ranges n xi = Ok (Some j)) frags.
Proof.
  revert bins0. induction frags as [|t rest IH]; intros bins0 Hrun; [done|].
  simpl in Hrun.
  destruct (first_xi t) as [xi|] eqn:Hx; simpl in Hrun; [|done].
  destruct (find_bin ranges n xi) as [[j|]|] eqn:Hf; simpl in Hrun; try done.
  destruct (append_to_bin bins0 j t) as [bins1|]; simpl in Hrun; [|done].
  constructor; eauto.
Qed.

Lemma bin_loop_not_placed ranges n pre t post bins0 xi :
  length bins0 = Z.to_nat n →
  Forall (placed ranges n) pre →
  first_xi t = Ok xi →
  find_bin ranges n xi = Ok None →
  bin_loop ranges n (pre ++ t :: post) bins0
  = Raise (Exception_xi_not_placed xi).
Proof.
  intros Hlen Hall Hx Hf. revert bins0 Hlen.
  induction Hall as [|u pre Hu _ IH]; intros bins0 Hlen; simpl.
  { rewrite Hx. simpl. by rewrite Hf. }
  destruct Hu as (xu & j & Hxu & Hfu & Hj).
  destruct (lookup_lt_is_Some_2 bins0 j) as [b Hb]; [lia|].
  rewrite Hxu. simpl. rewrite Hfu. simpl.
  unfold append_to_bin. rewrite (subscript_Ok _ _ _ Hb). simpl.
  apply IH. by rewrite length_insert.
Qed.

Lemma bin_loop_length ranges n frags bins0 bins :
  bin_loop ranges n frags bins0 = Ok bins → length bins = length bins0.
Proof.
  revert bins0. induction frags as [|t rest IH]; intros bins0; simpl.
  { by intros [= <-]. }
  destruct (first_xi t) as [xi|]; simpl; [|done].
  destruct (find_bin ranges n xi) as [[j|]|]; simpl; try done.
  unfold append_to_bin. destruct (subscript bins0 j) as [b|]; simpl; [|done].
  intros Hrun. apply IH in Hrun. by rewrite length_insert in Hrun.
Qed.

Lemma bin_trajectories_length ranges n frags bins :
  bin_trajectories ranges n frags = Ok bins → length bins = Z.to_nat n.
Proof.
  intros Hrun. apply bin_loop_length in Hrun.
  by rewrite length_fmap, length_range in Hrun.
Qed.

Lemma fmap_lookup_range {A B} (f : A → B) (l : list A) n :
  length l = Z.to_nat n →
  (λ i, f <$> l !! i) <$> range n = Some <$> (f <$> l).
Proof.
  intros Hlen. apply list_eq. intros i. unfold range.
  rewrite !list_lookup_fmap.
  destruct (decide (i < length l)%nat) as [Hi|Hi].
  - rewrite lookup_seq_lt by lia. simpl.
    by destruct (lookup_lt_is_Some_2 l i Hi) as [x ->].
  - rewrite lookup_seq_ge by lia. by rewrite lookup_ge_None_2 by lia.
Qed.

Lemma concat_empty_bins {A B} (l : list B) :
  concat ((λ _, @nil A) <$> l) = [].
Proof. induction l as [|x l IH]; [done|]. by rewrite fmap_cons. Qed.

Lemma lookup_empty_bins {A} n j :
  (j < Z.to_nat n)%nat → ((λ _, @nil A) <$> range n) !! j = Some [].
Proof.
  intros Hj. rewrite list_lookup_fmap. unfold range.
  by rewrite lookup_seq_lt.
Qed.

(** The intervals of the grid, by their edges. *)
Lemma in_bin_edge n ranges xi j :
  1 ≤ n →
  (∀ j, (j ≤ Z.to_nat n)%nat → ranges !! j = Some (edge n j)) →
  (j < Z.to_nat n)%nat →
  in_bin ranges xi j ↔ (edge n j <= xi ∧ xi <= edge n (j + 1))%Q.
Proof.
  intros Hn Hr Hj. unfold in_bin. split.
  - intros (lo & hi & Hlo & Hhi & ? & ?).
    rewrite Hr in Hlo by lia. rewrite Hr in Hhi by lia. by simplify_eq.
  - intros [? ?]. exists (edge n j), (edge n (j + 1)).
    rewrite !Hr by lia. done.
Qed.

(** Between its first and its last point, any sequence of points covers:
    a value from the first point to the last passes the closed test of some
    pair of neighbours, increasing or not.  So no rounding of the points in
    between can leave a value of [[-1, 1]] without a bin. *)
Lemma any_grid_covers (ranges : list Q) (n : nat) (xi lo hi : Q) :
  (1 ≤ n)%nat → length ranges = S n →
  ranges !! 0%nat = Some lo → ranges !! n = Some hi →
  (lo <= xi <= hi)%Q →
  ∃ j, (j < n)%nat ∧ in_bin ranges xi j.
Proof.
  intros Hn Hlen Hfirst Hlast [Hlo Hhi].
  assert (∀ m, (1 ≤ m ≤ n)%nat →
            (∃ j, (j < m)%nat ∧ in_bin ranges xi j)
            ∨ (∃ b, ranges !! m = Some b ∧ (b < xi)%Q)) as Hscan.
  { intros m [Hm1 Hm2]. induction m as [|m IH]; [lia|].
    destruct (lookup_lt_is_Some_2 ranges (S m)) as [b' Hb']; [lia|].
    destruct (Qlt_le_dec b' xi) as [?|Hle]; [right; by exists b'|left].
    destruct (decide (m = 0%nat)) as [->|].
    - exists 0%nat. split; [lia|]. by exists lo, b'.
    - destruct IH as [(j & ? & ?)|(b & Hb & Hlt)]; [lia|lia| |].
      + exists j. split; [lia|done].
      + exists m. split; [lia|]. exists b, b'.
        replace (m + 1)%nat with (S m) by lia.
        split_and!; [done|done|lra|done]. }
  destruct (Hscan n) as [?|(b & Hb & Hlt)]; [lia|done|].
  rewrite Hlast in Hb. injection Hb as <-. lra.
Qed.

(** Every value of [[-1, 1]] passes the test of some interval. *)
Lemma grid_covers n ranges xi :
  1 ≤ n →
  length ranges = S (Z.to_nat n) →
  (∀ j, (j ≤ Z.to_nat n)%nat → ranges !! j = Some (edge n j)) →
  (-1 <= xi <= 1)%Q →
  ∃ j, (j < Z.to_nat n)%nat ∧ in_bin ranges xi j.
Proof.
  intros Hn Hlen Hr [Hlo Hhi].
  apply (any_grid_covers ranges (Z.to_nat n) xi (edge n 0)
           (edge n (Z.to_nat n))); [lia|done|apply Hr; lia|apply Hr; lia|].
  rewrite edge_first, edge_last by done. done.
Qed.

(** No interval reaches outside [[-1, 1]]. *)
Lemma grid_within n ranges xi j :
  1 ≤ n →
  (∀ j, (j ≤ Z.to_nat n)%nat → ranges !! j = Some (edge n j)) →
  (j < Z.to_nat n)%nat → in_bin ranges xi j → (-1 <= xi <= 1)%Q.
Proof.
  intros Hn Hr Hj Hin. apply (in_bin_edge n) in Hin as [? ?]; [|done..].
  destruct (edge_bounds n j Hn) as [? _]; [lia|].
  destruct (edge_bounds n (j + 1) Hn) as [_ ?]; [lia|].
  split; lra.
Qed.

Lemma placed_in_range n ranges t xi :
  1 ≤ n →
  length ranges = S (Z.to_nat n) →
  (∀ j, (j ≤ Z.to_nat n)%nat → ranges !! j = Some (edge n j)) →
  first_xi t = Ok xi → (-1 <= xi <= 1)%Q → placed ranges n t.
Proof.
  intros Hn Hlen Hr Hx Hxi.
  assert (Z.to_nat n < length ranges)%nat as Hlt by lia.
  destruct (find_bin_total ranges n xi Hlt) as [[j|] Hf].
  - exists xi, j. split_and!; [done..|].
    by destruct (proj1 (find_bin_Some _ _ xi j Hlt) Hf) as [? _].
  - destruct (grid_covers n ranges xi) as (j & Hj & Hin); [done..|].
    pose proof (proj1 (find_bin_None _ _ xi Hlt) Hf) as Hno.
    by destruct (Hno j).
Qed.

Lemma xi_binner_unfold n ranges frags :
  np_linspace (-1) 1 (n + 1) = Ok ranges →
  xi_binner n frags = bin_trajectories ranges n frags.
Proof. unfold xi_binner. by intros ->. Qed.

(** What a run of the binner that returns has done. *)
Lemma bin_trajectories_Ok ranges n frags :
  Forall (placed ranges n) frags →
  ∃ bins, bin_trajectories ranges n frags = Ok bins
    ∧ length bins = Z.to_nat n
    ∧ concat bins ≡ₚ frags
    ∧ ∀ j, (j < Z.to_nat n)%nat →
        bins !! j = Some (filter (λ t, bin_index ranges n t = Some j) frags).
Proof.
  intros Hall. unfold bin_trajectories.
  destruct (bin_loop_Ok ranges n frags ((λ _, []) <$> range n))
    as (bins & Hrun & Hl & Hperm & Hbins); [|done|].
  { by rewrite length_fmap, length_range. }
  exists bins. split_and!; [done..| |].
  - by rewrite Hperm, concat_empty_bins.
  - intros j Hj. by rewrite (Hbins j []) by by apply lookup_empty_bins.
Qed.

(** C2: with at least one bin, on fragments whose first-frame xi all lie in
    [[-1, 1]] the binner returns [num_xi_bins] bins; every fragment has one
    bin index, bin [j] holds exactly the fragments of index [j] in their
    order, so the bins together are a permutation of the fragments and their
    sizes add up to the number of fragments; and a value passes the test of
    some interval exactly when it lies in [[-1, 1]]. *)
Theorem xi_binner_partitions (num_xi_bins : Z) (one_dim_trajs : list fragment) :
  1 ≤ num_xi_bins →
  Forall (λ t, ∃ xi, first_xi t = Ok xi ∧ (-1 <= xi <= 1)%Q) one_dim_trajs →
  ∃ xi_bins_ranges xi_bins,
    np_linspace (-1) 1 (num_xi_bins + 1) = Ok xi_bins_ranges
    ∧ xi_binner num_xi_bins one_dim_trajs = Ok xi_bins
    ∧ length xi_bins = Z.to_nat num_xi_bins
    ∧ (∀ t, t ∈ one_dim_trajs →
         ∃ j, (j < Z.to_nat num_xi_bins)%nat
              ∧ bin_index xi_bins_ranges num_xi_bins t = Some j)
    ∧ (∀ j, (j < Z.to_nat num_xi_bins)%nat →
         xi_bins !! j
         = Some (filter (λ t, bin_index xi_bins_ranges num_xi_bins t = Some j)
                        one_dim_trajs))
    ∧ concat xi_bins ≡ₚ one_dim_trajs
    ∧ sum_list (length <$> xi_bins) = length one_dim_trajs
    ∧ (∀ x, (∃ j, (j < Z.to_nat num_xi_bins)%nat ∧ in_bin xi_bins_ranges x j)
            ↔ (-1 <= x <= 1)%Q).
Proof.
  intros Hn Hall.
  destruct (linspace_bins num_xi_bins Hn) as (ranges & Hlin & Hlen & Hr).
  assert (Forall (placed ranges num_xi_bins) one_dim_trajs) as Hpl.
  { eapply Forall_impl; [done|]. intros t (xi & ? & ?).
    by eapply placed_in_range. }
  destruct (bin_trajectories_Ok ranges num_xi_bins one_dim_trajs Hpl)
    as (bins & Hrun & Hl & Hperm & Hbins).
  exists ranges, bins. split_and!; try done.
  - by rewrite (xi_binner_unfold _ ranges).
  - intros t Ht.
    destruct (placed_bin_index ranges num_xi_bins t) as (j & ? & ?); [|by eauto].
    by eapply (proj1 (Forall_forall _ _) Hpl).
  - by rewrite <- length_concat, Hperm.
  - intros x. split.
    + intros [j [Hj Hin]]. by eapply grid_within.
    + by apply grid_covers.
Qed.

Lemma np_linspace_Ok start stop num :
  0 ≤ num → ∃ y, np_linspace start stop num = Ok y.
Proof.
  intros Hn. unfold np_linspace.
  destruct (Z.ltb_spec num 0); [lia|]. eauto.
Qed.

Lemma np_linspace_negative start stop num :
  num < 0 → np_linspace start stop num = Raise ValueError.
Proof.
  intros Hn. unfold np_linspace. by destruct (Z.ltb_spec num 0); [|lia].
Qed.

Lemma find_bin_no_bins ranges n xi : n ≤ 0 → find_bin ranges n xi = Ok None.
Proof.
  intros Hn. unfold find_bin, range. by replace (Z.to_nat n) with 0%nat by lia.
Qed.

(** Outside [[-1, 1]] the scan finds nothing, whatever the number of bins. *)
Lemma find_bin_outside n ranges xi :
  np_linspace (-1) 1 (n + 1) = Ok ranges →
  (xi < -1 ∨ 1 < xi)%Q → find_bin ranges n xi = Ok None.
Proof.
  intros Hlin Hout. destruct (Z.le_gt_cases n 0) as [?|Hn].
  { by apply find_bin_no_bins. }
  destruct (linspace_bins n) as (ranges' & Hlin' & Hlen & Hr); [lia|].
  assert (ranges' = ranges) as -> by congruence.
  assert (Z.to_nat n < length ranges)%nat as Hlt by lia.
  apply (find_bin_None _ _ _ Hlt). intros j Hj Hin.
  destruct (grid_within n ranges xi j) as [? ?]; [lia|done..|].
  destruct Hout; lra.
Qed.

(** C4: a fragment whose first-frame xi is below [-1] or above [1] makes the
    binner raise, whatever the number of bins and the other fragments; when
    the fragments before it are in range (and there is a bin), what is
    raised is the exception that reports this xi as not placed. *)
Theorem xi_binner_rejects_outside (num_xi_bins : Z) (pre post : list fragment)
    (trajectory : fragment) (traj_xi : Q) :
  first_xi trajectory = Ok traj_xi →
  (traj_xi < -1 ∨ 1 < traj_xi)%Q →
  (∃ e, xi_binner num_xi_bins (pre ++ trajectory :: post) = Raise e)
  ∧ (1 ≤ num_xi_bins →
     Forall (λ u, ∃ x, first_xi u = Ok x ∧ (-1 <= x <= 1)%Q) pre →
     xi_binner num_xi_bins (pre ++ trajectory :: post)
     = Raise (Exception_xi_not_placed traj_xi)).
Proof.
  intros Hx Hout. split.
  - destruct (Z.lt_ge_cases (num_xi_bins + 1) 0) as [Hneg|Hnn].
    { exists ValueError. unfold xi_binner.
      by rewrite np_linspace_negative. }
    destruct (np_linspace_Ok (-1) 1 (num_xi_bins + 1) Hnn) as [ranges Hlin].
    rewrite (xi_binner_unfold _ ranges) by done.
    destruct (bin_trajectories _ _ _) as [bins|e] eqn:Hrun; [|by eauto].
    apply bin_loop_inv in Hrun.
    apply Forall_app in Hrun as [_ Ht]. apply Forall_cons in Ht as [Ht _].
    destruct Ht as (xi' & j & Hx' & Hf).
    assert (xi' = traj_xi) as -> by congruence.
    by rewrite (find_bin_outside num_xi_bins) in Hf.
  - intros Hn Hpre.
    destruct (linspace_bins num_xi_bins Hn) as (ranges & Hlin & Hlen & Hr).
    rewrite (xi_binner_unfold _ ranges) by done.
    apply bin_loop_not_placed; [| |done|].
    + by rewrite length_fmap, length_range.
    + eapply Forall_impl; [done|]. intros u (x & ? & ?).
      by eapply placed_in_range.
    + by apply (find_bin_outside num_xi_bins).
Qed.


(** ** More on the binner *)

Lemma in_bin_grid_point n ranges xi j :
  1 ≤ n → np_linspace (-1) 1 (n + 1) = Ok ranges →
  (j < Z.to_nat n)%nat →
  in_bin ranges xi j
  ↔ (grid_point n j <= xi ∧ xi <= grid_point n (j + 1))%Q.
Proof.
  intros Hn Hlin Hj.
  destruct (linspace_bins n Hn) as (ranges' & Hlin' & Hlen & Hr).
  assert (ranges' = ranges) as -> by congruence.
  rewrite (in_bin_edge n ranges xi j Hn Hr Hj).
  unfold grid_point. rewrite <- !edge_val by (done || lia). done.
Qed.

Lemma grid_point_lt n i j :
  1 ≤ n → (i < j ≤ Z.to_nat n)%nat → (grid_point n i < grid_point n j)%Q.
Proof.
  intros Hn Hij. unfold grid_point.
  rewrite <- !edge_val by (done || lia). by apply edge_lt.
Qed.

Lemma grid_point_le n i j :
  1 ≤ n → (i ≤ j ≤ Z.to_nat n)%nat → (grid_point n i <= grid_point n j)%Q.
Proof.
  intros Hn Hij. unfold grid_point.
  rewrite <- !edge_val by (done || lia). by apply edge_le.
Qed.

(** The scan returns [j] exactly for the values of the half-open interval
    [(grid_point j, grid_point (j + 1)]], closed at [-1] for [j = 0]. *)
Lemma find_bin_interval (num_xi_bins : Z) (xi_bins_ranges : list Q)
    (traj_xi : Q) (j : nat) :
  1 ≤ num_xi_bins →
  np_linspace (-1) 1 (num_xi_bins + 1) = Ok xi_bins_ranges →
  find_bin xi_bins_ranges num_xi_bins traj_xi = Ok (Some j)
  ↔ (j < Z.to_nat num_xi_bins)%nat
    ∧ (traj_xi <= grid_point num_xi_bins (j + 1))%Q
    ∧ (if decide (j = 0%nat) then (-1 <= traj_xi)%Q
       else (grid_point num_xi_bins j < traj_xi)%Q).
Proof.
  intros Hn Hlin.
  destruct (linspace_bins num_xi_bins Hn) as (ranges' & Hlin' & Hlen & Hr).
  assert (ranges' = xi_bins_ranges) as -> by congruence.
  assert (Z.to_nat num_xi_bins < length xi_bins_ranges)%nat as Hlt by lia.
  assert (grid_point num_xi_bins 0 == -1)%Q as H0.
  { unfold grid_point. rewrite <- edge_val by (done || lia).
    by apply edge_first. }
  rewrite (find_bin_Some _ _ _ _ Hlt). split.
  - intros (Hj & Hin & Hmin). split; [done|].
    apply (in_bin_grid_point num_xi_bins) in Hin as [Hlo Hhi]; [|done..].
    split; [done|]. case_decide as Hj0.
    + subst j. by rewrite <- H0.
    + apply Qnot_le_lt. intros Hle. apply (Hmin (j - 1)%nat); [lia|].
      apply (in_bin_grid_point num_xi_bins); [done|done|lia|].
      replace (j - 1 + 1)%nat with j by lia. split; [|done].
      assert (grid_point num_xi_bins (j - 1) <= grid_point num_xi_bins j)%Q
        by (apply grid_point_le; [done|lia]).
      lra.
  - intros (Hj & Hhi & Hlo). split; [done|]. split.
    + apply (in_bin_grid_point num_xi_bins); [done..|]. split; [|done].
      case_decide as Hj0; [subst j; by rewrite H0|lra].
    + intros i Hi Hin.
      apply (in_bin_grid_point num_xi_bins) in Hin as [_ Hhi']; [|done|done|lia].
      rewrite decide_False in Hlo by lia.
      assert (grid_point num_xi_bins (i + 1) <= grid_point num_xi_bins j)%Q
        by (apply grid_point_le; [done|lia]).
      lra.
Qed.


(** X2: the bin index is monotone in xi: a larger first-frame xi never goes
    to an earlier bin. *)
Theorem find_bin_monotone (num_xi_bins : Z) (xi_bins_ranges : list Q)
    (xi1 xi2 : Q) (j1 j2 : nat) :
  1 ≤ num_xi_bins →
  np_linspace (-1) 1 (num_xi_bins + 1) = Ok xi_bins_ranges →
  (xi1 <= xi2)%Q →
  find_bin xi_bins_ranges num_xi_bins xi1 = Ok (Some j1) →
  find_bin xi_bins_ranges num_xi_bins xi2 = Ok (Some j2) →
  (j1 ≤ j2)%nat.
Proof.
  intros Hn Hlin Hle H1 H2.
  apply (find_bin_interval _ _ _ _ Hn Hlin) in H1 as (Hj1 & _ & Hlo1).
  apply (find_bin_interval _ _ _ _ Hn Hlin) in H2 as (Hj2 & Hhi2 & _).
  destruct (decide (j1 ≤ j2)%nat) as [|Hgt]; [done|exfalso].
  rewrite decide_False in Hlo1 by lia.
  assert (grid_point num_xi_bins (j2 + 1) <= grid_point num_xi_bins j1)%Q
    by (apply grid_point_le; [done|lia]).
  lra.
Qed.

(** X3: the end points are placed: [xi = -1] goes to bin 0 and [xi = 1]
    to the last bin, [num_xi_bins - 1]. *)
Theorem find_bin_end_points (num_xi_bins : Z) (xi_bins_ranges : list Q) :
  1 ≤ num_xi_bins →
  np_linspace (-1) 1 (num_xi_bins + 1) = Ok xi_bins_ranges →
  find_bin xi_bins_ranges num_xi_bins (-1) = Ok (Some 0%nat)
  ∧ find_bin xi_bins_ranges num_xi_bins 1
    = Ok (Some (Z.to_nat num_xi_bins - 1)%nat).
Proof.
  intros Hn Hlin.
  assert (grid_point num_xi_bins 0 == -1)%Q as H0.
  { unfold grid_point. rewrite <- edge_val by (done || lia).
    by apply edge_first. }
  assert (grid_point num_xi_bins (Z.to_nat num_xi_bins) == 1)%Q as H1.
  { unfold grid_point. rewrite <- edge_val by (done || lia).
    by rewrite edge_last. }
  split; apply (find_bin_interval _ _ _ _ Hn Hlin).
  - split; [lia|]. split; [|by rewrite decide_True].
    rewrite <- H0. apply grid_point_le; [done|lia].
  - split; [lia|]. replace (Z.to_nat num_xi_bins - 1 + 1)%nat
      with (Z.to_nat num_xi_bins) by lia.
    split; [by rewrite H1|]. case_decide; [done|].
    rewrite <- H1. apply grid_point_lt; [done|lia].
Qed.

Lemma scan_bins_elem ranges xi js j :
  scan_bins ranges xi js = Ok (Some j) → j ∈ js.
Proof.
  induction js as [|i js IH]; simpl; [done|].
  destruct (subscript ranges i) as [lo|]; simpl; [|done].
  destruct (Qle_bool lo xi).
  - destruct (subscript ranges (i + 1)) as [hi|]; simpl; [|done].
    destruct (Qle_bool xi hi).
    + intros [= <-]. left.
    + intros H. right. by apply IH.
  - intros H. right. by apply IH.
Qed.

Lemma find_bin_lt ranges n xi j :
  find_bin ranges n xi = Ok (Some j) → (j < Z.to_nat n)%nat.
Proof.
  intros H. apply scan_bins_elem in H. unfold range in H.
  apply elem_of_seq in H. lia.
Qed.

Lemma first_xi_raises t e : first_xi t = Raise e → e = IndexError ∧ t = [].
Proof. destruct t as [|fr t]; [by intros [= <-]|done]. Qed.

(** With the points of [np.linspace] the scan itself never raises. *)
Lemma find_bin_linspace n ranges xi :
  np_linspace (-1) 1 (n + 1) = Ok ranges →
  ∃ r, find_bin ranges n xi = Ok r.
Proof.
  intros Hlin. destruct (Z.le_gt_cases n 0) as [?|Hn].
  { exists None. by apply find_bin_no_bins. }
  destruct (linspace_bins n) as (ranges' & Hlin' & Hlen & Hr); [lia|].
  assert (ranges' = ranges) as -> by congruence.
  apply find_bin_total. lia.
Qed.

Lemma bin_loop_raises n ranges frags bins0 e :
  np_linspace (-1) 1 (n + 1) = Ok ranges →
  length bins0 = Z.to_nat n →
  bin_loop ranges n frags bins0 = Raise e →
  (e = IndexError ∧ [] ∈ frags)
  ∨ (∃ t xi, t ∈ frags ∧ first_xi t = Ok xi
             ∧ find_bin ranges n xi = Ok None
             ∧ e = Exception_xi_not_placed xi).
Proof.
  intros Hlin. revert bins0.
  induction frags as [|t rest IH]; intros bins0 Hlen; simpl; [done|].
  destruct (first_xi t) as [xi|e'] eqn:Hx; simpl.
  2:{ intros [= <-]. apply first_xi_raises in Hx as [-> ->].
      left. split; [done|left]. }
  destruct (find_bin_linspace n ranges xi Hlin) as [[j|] Hf]; rewrite Hf; simpl.
  - pose proof (find_bin_lt _ _ _ _ Hf) as Hj.
    destruct (lookup_lt_is_Some_2 bins0 j) as [b Hb]; [lia|].
    unfold append_to_bin. rewrite (subscript_Ok _ _ _ Hb). simpl.
    intros Hrun. apply IH in Hrun; [|by rewrite length_insert].
    destruct Hrun as [[-> ?]|(u & xu & ? & ? & ? & ->)].
    + left. split; [done|by right].
    + right. exists u, xu. split_and!; [by right|done..].
  - intros [= <-]. right. exists t, xi. split_and!; [left|done..].
Qed.

(** X4: the exceptions of the binner and their causes: [ValueError] only
    for [num_xi_bins < -1] (from [np.linspace]), [IndexError] only when some
    fragment has no frame, and otherwise the not-placed [Exception] for a
    fragment of the list whose first-frame xi it carries, and then either
    there is no bin ([num_xi_bins <= 0]) or that xi is outside
    [[-1, 1]]. *)
Theorem xi_binner_raises (num_xi_bins : Z) (one_dim_trajs : list fragment)
    (e : exn) :
  xi_binner num_xi_bins one_dim_trajs = Raise e →
  (e = ValueError ∧ num_xi_bins < -1)
  ∨ (e = IndexError ∧ [] ∈ one_dim_trajs)
  ∨ (∃ trajectory traj_xi,
       trajectory ∈ one_dim_trajs
       ∧ first_xi trajectory = Ok traj_xi
       ∧ e = Exception_xi_not_placed traj_xi
       ∧ (num_xi_bins ≤ 0 ∨ (traj_xi < -1)%Q ∨ (1 < traj_xi)%Q)).
Proof.
  intros Hrun.
  destruct (Z.lt_ge_cases (num_xi_bins + 1) 0) as [Hneg|Hnn].
  { left. unfold xi_binner in Hrun.
    rewrite np_linspace_negative in Hrun by done.
    injection Hrun as <-. split; [done|lia]. }
  right.
  destruct (np_linspace_Ok (-1) 1 (num_xi_bins + 1) Hnn) as [ranges Hlin].
  rewrite (xi_binner_unfold _ ranges) in Hrun by done.
  assert (length ((λ _ : nat, @nil fragment) <$> range num_xi_bins)
          = Z.to_nat num_xi_bins) as Hl
    by by rewrite length_fmap, length_range.
  destruct (bin_loop_raises num_xi_bins ranges _ _ e Hlin Hl Hrun)
    as [?|(t & xi & Ht & Hx & Hf & ->)]; [by left|].
  right. exists t, xi. split_and!; [done..|].
  destruct (Z.le_gt_cases num_xi_bins 0) as [?|Hn]; [by left|right].
  destruct (Qlt_le_dec xi (-1)) as [?|Hlo]; [by left|].
  destruct (Qlt_le_dec 1 xi) as [?|Hhi]; [by right|exfalso].
  destruct (linspace_bins num_xi_bins) as (ranges' & Hlin' & Hlen & Hr); [lia|].
  assert (ranges' = ranges) as -> by congruence.
  destruct (grid_covers num_xi_bins ranges xi) as (j & Hj & Hin);
    [lia|done..|].
  assert (Z.to_nat num_xi_bins < length ranges)%nat as Hlt by lia.
  by destruct (proj1 (find_bin_None _ _ xi Hlt) Hf j).
Qed.

(** X5: a fragment without frames makes [trajectory[0]] raise
    [IndexError]: at once when it comes first, and after fragments that are
    placed just the same. *)
Theorem xi_binner_empty_fragment (num_xi_bins : Z)
    (pre post : list fragment) :
  (-1 ≤ num_xi_bins →
   xi_binner num_xi_bins ([] :: post) = Raise IndexError)
  ∧ (1 ≤ num_xi_bins →
     Forall (λ u, ∃ x, first_xi u = Ok x ∧ (-1 <= x <= 1)%Q) pre →
     xi_binner num_xi_bins (pre ++ [] :: post) = Raise IndexError).
Proof.
  split.
  - intros Hn.
    destruct (np_linspace_Ok (-1) 1 (num_xi_bins + 1)) as [ranges Hlin];
      [lia|].
    by rewrite (xi_binner_unfold _ ranges).
  - intros Hn Hpre.
    destruct (linspace_bins num_xi_bins Hn) as (ranges & Hlin & Hlen & Hr).
    rewrite (xi_binner_unfold _ ranges) by done.
    assert (Forall (placed ranges num_xi_bins) pre) as Hpl.
    { eapply Forall_impl; [done|]. intros u (x & ? & ?).
      by eapply placed_in_range. }
    unfold bin_trajectories.
    assert (length ((λ _ : nat, @nil fragment) <$> range num_xi_bins)
            = Z.to_nat num_xi_bins) as Hl
      by by rewrite length_fmap, length_range.
    revert Hl. generalize ((λ _ : nat, @nil fragment) <$> range num_xi_bins).
    induction Hpl as [|u pre (xu & j & Hxu & Hfu & Hj) _ IH];
      intros bins0 Hl; simpl; [done|].
    destruct (lookup_lt_is_Some_2 bins0 j) as [b Hb]; [lia|].
    rewrite Hxu. simpl. rewrite Hfu. simpl.
    unfold append_to_bin. rewrite (subscript_Ok _ _ _ Hb). simpl.
    apply IH; [by inversion Hpre|by rewrite length_insert].
Qed.

Lemma bin_loop_app ranges n l1 l2 bins0 :
  bin_loop ranges n (l1 ++ l2) bins0
  = bin_loop ranges n l1 bins0 ≫= bin_loop ranges n l2.
Proof.
  revert bins0. induction l1 as [|t l1 IH]; intros bins0; [done|].
  simpl. destruct (first_xi t) as [xi|]; simpl; [|done].
  destruct (find_bin ranges n xi) as [[j|]|]; simpl; try done.
  destruct (append_to_bin bins0 j t) as [bins1|]; simpl; [|done].
  apply IH.
Qed.

Lemma zip_with_app_empty {A B} (bins0 : list (list A)) (l : list B) :
  length bins0 = length l →
  zip_with (++) bins0 ((λ _, []) <$> l) = bins0.
Proof.
  revert l. induction bins0 as [|b bins0 IH]; intros [|x l] Hlen;
    simplify_eq/=; [done|].
  by rewrite app_nil_r, IH.
Qed.

Lemma zip_with_app_insert {A} n (bins0 b : list (list A)) j b0 x :
  bins0 !! j = Some b0 → (j < Z.to_nat n)%nat →
  length bins0 = Z.to_nat n →
  zip_with (++) (<[j := b0 ++ [x]]> bins0) b
  = zip_with (++) bins0
      (zip_with (++) (<[j := [x]]> ((λ _, []) <$> range n)) b).
Proof.
  intros H0 Hj Hlen. apply list_eq. intros i. rewrite !lookup_zip_with.
  destruct (decide (i = j)) as [->|Hne].
  - rewrite (list_lookup_insert_eq bins0) by by eapply lookup_lt_Some.
    rewrite list_lookup_insert_eq by by rewrite length_fmap, length_range.
    rewrite H0. simpl. destruct (b !! j) as [bj|]; simpl; [|done].
    by rewrite <- (assoc_L (++)).
  - rewrite !list_lookup_insert_ne by done.
    destruct (bins0 !! i) as [b0i|] eqn:Hi; simpl; [|done].
    rewrite lookup_empty_bins
      by (apply lookup_lt_Some in Hi; lia).
    simpl. by destruct (b !! i).
Qed.

(** Binning into bins that already hold fragments is binning into empty
    bins and appending, bin by bin. *)
Lemma bin_loop_from ranges n frags bins0 :
  length bins0 = Z.to_nat n →
  bin_loop ranges n frags bins0
  = (b ← bin_loop ranges n frags ((λ _, []) <$> range n);
     Ok (zip_with (++) bins0 b)).
Proof.
  revert bins0. induction frags as [|t rest IH]; intros bins0 Hl0; simpl.
  { by rewrite zip_with_app_empty by by rewrite length_range. }
  destruct (first_xi t) as [xi|]; simpl; [|done].
  destruct (find_bin ranges n xi) as [[j|]|] eqn:Hf; simpl; try done.
  pose proof (find_bin_lt _ _ _ _ Hf) as Hj.
  destruct (lookup_lt_is_Some_2 bins0 j) as [b0 Hb0]; [lia|].
  unfold append_to_bin.
  rewrite (subscript_Ok _ _ _ Hb0).
  rewrite (subscript_Ok _ _ [] (lookup_empty_bins n j Hj)). simpl.
  rewrite (IH (<[j:=b0 ++ [t]]> bins0)) by by rewrite length_insert.
  rewrite (IH (<[j:=[t]]> _))
    by by rewrite length_insert, length_fmap, length_range.
  destruct (bin_loop ranges n rest _) as [b|]; simpl; [|done].
  f_equal. by apply (zip_with_app_insert n).
Qed.

(** X6: binning a concatenation is binning the two parts and appending bin
    by bin, exceptions included: a fragment's bin does not depend on the
    other fragments, and the first failure wins. *)
Theorem xi_binner_app (num_xi_bins : Z) (l1 l2 : list fragment) :
  xi_binner num_xi_bins (l1 ++ l2)
  = (xi_bins1 ← xi_binner num_xi_bins l1;
     xi_bins2 ← xi_binner num_xi_bins l2;
     Ok (zip_with (++) xi_bins1 xi_bins2)).
Proof.
  unfold xi_binner.
  destruct (np_linspace (-1) 1 (num_xi_bins + 1)) as [ranges|]; simpl;
    [|done].
  unfold bin_trajectories. rewrite bin_loop_app.
  destruct (bin_loop ranges num_xi_bins l1 _) as [b1|] eqn:H1; simpl; [|done].
  apply bin_loop_from. apply bin_loop_length in H1.
  by rewrite H1, length_fmap, length_range.
Qed.

Lemma bin_loop_natural (f : fragment → fragment) ranges n
    (frags : list fragment) (bins : list (list fragment)) :
  (∀ t, first_xi (f t) = first_xi t) →
  bin_loop ranges n (fmap (M:=list) f frags)
    (fmap (M:=list) (fmap (M:=list) f) bins)
  = (xi_bins ← bin_loop ranges n frags bins;
     Ok (fmap (M:=list) (fmap (M:=list) f) xi_bins)).
Proof.
  intros Hf. revert bins. induction frags as [|t rest IH]; intros bins; [done|].
  rewrite fmap_cons. cbn [bin_loop]. rewrite Hf.
  destruct (first_xi t) as [xi|]; [|done]. cbn.
  destruct (find_bin ranges n xi) as [[j|]|]; [|done..]. cbn.
  unfold append_to_bin, subscript. rewrite list_lookup_fmap.
  destruct (bins !! j) as [b|]; [|done]. cbn.
  rewrite <- IH. f_equal.
  by rewrite list_fmap_insert, fmap_app.
Qed.

(** X7: a fragment is binned by the xi of its first frame alone: changing
    the fragments in any way that keeps the first-frame xi (dropping later
    frames, changing the collective variable) changes neither the outcome
    nor the bin a fragment goes to. *)
Theorem xi_binner_first_frame_only (num_xi_bins : Z)
    (f : fragment → fragment) (one_dim_trajs : list fragment) :
  (∀ trajectory, first_xi (f trajectory) = first_xi trajectory) →
  xi_binner num_xi_bins (fmap (M:=list) f one_dim_trajs)
  = (xi_bins ← xi_binner num_xi_bins one_dim_trajs;
     Ok (fmap (M:=list) (fmap (M:=list) f) xi_bins)).
Proof.
  intros Hf. unfold xi_binner.
  destruct (np_linspace (-1) 1 (num_xi_bins + 1)) as [ranges|]; [|done].
  cbn. unfold bin_trajectories.
  rewrite <- (bin_loop_natural f) by done. f_equal.
  rewrite <- list_fmap_compose. by apply list_fmap_ext.
Qed.

(** ** Runs of programs *)

Section Orchestration.
Context {Traj Calc : Type}.
Implicit Types h : handler Traj Calc.
#[local] Abbreviation prog := (prog Traj Calc).
#[local] Abbreviation event := (event Traj Calc).
#[local] Abbreviation call := (call Traj Calc).

Lemma run_prog_bind {A B} h (p : prog A) (f : A → prog B) :
  run h (prog_bind f p)
  = match run h p with
    | (t, Ok a) => let '(t', r) := run h (f a) in (t ++ t', r)
    | (t, Raise e) => (t, Raise e)
    end.
Proof.
  induction p as [a|e|X c k IH]; cbn [prog_bind run].
  - by destruct (run h (f a)).
  - done.
  - destruct (h X c) as [x|e]; [|done].
    rewrite IH. destruct (run h (k x)) as [t [a|e]]; [|done].
    by destruct (run h (f a)).
Qed.

Lemma run_bind {A B} h (p : prog A) (f : A → prog B) :
  run h (p ≫= f)
  = match run h p with
    | (t, Ok a) => let '(t', r) := run h (f a) in (t ++ t', r)
    | (t, Raise e) => (t, Raise e)
    end.
Proof. apply run_prog_bind. Qed.

Lemma run_do {X} h (c : call X) :
  run h (do c)
  = match h X c with
    | Ok x => ([Event c], Ok x)
    | Raise e => ([Event c], Raise e)
    end.
Proof. unfold do. simpl. by destruct (h X c). Qed.

Lemma run_lift {A} h (r : result A) : run h (lift r) = ([], r).
Proof. by destruct r. Qed.

(** *** Properties of every call of a run and of what it returns *)

Lemma hoare_Return {R} h P (r : R) (Q : R → Prop) :
  Q r → hoare h P (Return r) Q.
Proof. intros HQ. split; [constructor|]. simpl. by intros ? [= <-]. Qed.

Lemma hoare_Throw {R} h P e (Q : R → Prop) : hoare h P (Throw e) Q.
Proof. split; [constructor|done]. Qed.

Lemma hoare_lift {R} h P (r : result R) (Q : R → Prop) :
  (∀ a, r = Ok a → Q a) → hoare h P (lift r) Q.
Proof. intros HQ. unfold hoare; rewrite run_lift. split; [constructor|done]. Qed.

Lemma hoare_do {X} h P (c : call X) (Q : X → Prop) :
  P (Event c) → (∀ x, h X c = Ok x → Q x) → hoare h P (do c) Q.
Proof.
  intros HP HQ. unfold hoare; rewrite run_do.
  destruct (h X c) as [x|e]; simpl; (split; [by repeat constructor|]).
  - intros ? [= <-]. by apply HQ.
  - done.
Qed.

Lemma hoare_bind {A B} h P (p : prog A) (f : A → prog B) Q' Q :
  hoare h P p Q' → (∀ a, Q' a → hoare h P (f a) Q) → hoare h P (p ≫= f) Q.
Proof.
  intros [HP HQ'] Hf. unfold hoare; rewrite run_bind.
  destruct (run h p) as [t [a|e]]; simpl in *; [|done].
  destruct (Hf a) as [HPf HQ]; [by apply HQ'|].
  destruct (run h (f a)) as [t' r]. simpl in *. split; [|done].
  by apply Forall_app.
Qed.

Lemma hoare_consequence {R} h P (p : prog R) (Q Q' : R → Prop) :
  hoare h P p Q → (∀ r, Q r → Q' r) → hoare h P p Q'.
Proof. intros [? HQ] Himp. split; [done|]. intros r Hr. by apply Himp, HQ. Qed.

Lemma hoare_when h P b (p : prog unit) :
  hoare h P p (λ _, True) → hoare h P (when b p) (λ _, True).
Proof. destruct b; [done|]. intros _. by apply hoare_Return. Qed.

Lemma hoare_for_each {A S} h P (l : list A) (body : A → S → prog S)
    (I : S → Prop) s :
  I s → (∀ x s, x ∈ l → I s → hoare h P (body x s) I) →
  hoare h P (for_each l body s) I.
Proof.
  revert s. induction l as [|x l IH]; intros s Hs Hbody; simpl.
  - by apply hoare_Return.
  - eapply hoare_bind; [apply Hbody; [left|done]|].
    intros s' Hs'. apply IH; [done|]. intros y s'' Hy. apply Hbody. by right.
Qed.

(** ** The loop over the log files *)

Lemma merge_log_first h f st :
  forceOutFreq st = None →
  run h (merge_log f st)
  = ([Event (parse_ramd_log_file f)],
     match h _ (parse_ramd_log_file f) with
     | Ok (trajs, fof, fr, ts) =>
         Ok {| trajectory_list := trajectory_list st ++ trajs;
               forceOutFreq := Some fof; forceRAMD := Some fr;
               timeStep := Some ts; trajectories := Some trajs |}
     | Raise e => Raise e
     end).
Proof.
  intros Hst. unfold merge_log. rewrite run_bind, run_do.
  destruct (h _ (parse_ramd_log_file f)) as [[[[trajs fof] fr] ts]|e]; [|done].
  rewrite Hst. done.
Qed.

Lemma merge_log_next h f st fof fr ts :
  forceOutFreq st = Some fof → forceRAMD st = Some fr → timeStep st = Some ts →
  run h (merge_log f st)
  = ([Event (parse_ramd_log_file f)],
     match h _ (parse_ramd_log_file f) with
     | Ok (trajs, fof', fr', ts') =>
         if fof =? fof' then
           if Qeq_bool fr fr' then
             if Qeq_bool ts ts' then Ok (merged st trajs)
             else Raise (AssertionError
                           "RAMD logs contain differing timeStep values.")
           else Raise (AssertionError
                         "RAMD logs contain differing forceRAMD values.")
         else Raise (AssertionError
                       "RAMD logs contain differing forceOutFreq values.")
     | Raise e => Raise e
     end).
Proof.
  intros H1 H2 H3. unfold merge_log. rewrite run_bind, run_do.
  destruct (h _ (parse_ramd_log_file f)) as [[[[trajs fof'] fr'] ts']|e]; [|done].
  rewrite H1, H2, H3. simpl.
  destruct (fof =? fof'); [|done]. simpl.
  destruct (Qeq_bool fr fr'); [|done]. simpl.
  destruct (Qeq_bool ts ts'); [|done]. simpl.
  unfold merged. by rewrite H1, H2, H3.
Qed.

Lemma consistent_tests h fof fr ts f trajs fof' fr' ts' :
  h _ (parse_ramd_log_file f) = Ok (trajs, fof', fr', ts') →
  consistent h fof fr ts f ↔
  (fof =? fof') = true ∧ Qeq_bool fr fr' = true ∧ Qeq_bool ts ts' = true.
Proof.
  intros Hh. unfold consistent. rewrite Z.eqb_eq, !Qeq_bool_iff. split.
  - intros (? & ? & ? & ? & Hh' & -> & Hfr & Hts).
    rewrite Hh in Hh'. simplify_eq. split_and!; [done|by symmetry..].
  - intros (-> & Hfr & Hts). exists trajs, fof', fr', ts'.
    split_and!; [done|done|by symmetry..].
Qed.

Lemma merge_rest_consistent h files st fof fr ts :
  metadata_is st fof fr ts →
  Forall (consistent h fof fr ts) files →
  run h (for_each files merge_log st)
  = (parse_events files, Ok (merged_all h st files)).
Proof.
  intros Hst Hall. revert st Hst.
  induction Hall as [|f rest Hf _ IH]; intros st (H1 & H2 & H3).
  { simpl. unfold merged_all. simpl. rewrite app_nil_r. by destruct st. }
  cbn [for_each]. rewrite run_bind, (merge_log_next h f st fof fr ts) by done.
  pose proof Hf as (trajs & fof' & fr' & ts' & Hh & _).
  apply (consistent_tests _ _ _ _ _ _ _ _ _ Hh) in Hf as (Ht1 & Ht2 & Ht3).
  rewrite Hh, Ht1, Ht2, Ht3, IH by done.
  cbn [app parse_events fmap list_fmap].
  do 2 f_equal. unfold merged_all, merged, parsed_trajectories.
  cbn [trajectory_list forceOutFreq forceRAMD timeStep trajectories].
  rewrite fmap_cons. cbn [concat]. fold (parsed_trajectories h).
  rewrite Hh, <- (assoc_L (++)). f_equal.
  rewrite last_cons. destruct (last rest); [done|]. by rewrite Hh.
Qed.

Lemma merge_rest_inconsistent h files st fof fr ts :
  metadata_is st fof fr ts →
  Forall (λ f, is_Ok (h _ (parse_ramd_log_file f))) files →
  ¬ Forall (consistent h fof fr ts) files →
  ∃ n msg, run h (for_each files merge_log st)
           = (parse_events (take n files), Raise (AssertionError msg)).
Proof.
  intros Hst Hall. revert st Hst.
  induction Hall as [|f rest [[[[trajs fof'] fr'] ts'] Hh] _ IH];
    intros st (H1 & H2 & H3) Hno.
  { by destruct Hno. }
  cbn [for_each]. rewrite run_bind, (merge_log_next h f st fof fr ts) by done.
  pose proof (consistent_tests h fof fr ts f _ _ _ _ Hh) as Hiff.
  rewrite Hh.
  destruct (fof =? fof'); [|by exists 1%nat; eauto].
  destruct (Qeq_bool fr fr'); [|by exists 1%nat; eauto].
  destruct (Qeq_bool ts ts'); [|by exists 1%nat; eauto].
  destruct (IH (merged st trajs)) as (n & msg & Hrun); [done| |].
  { intros Hrest. apply Hno. constructor; [by apply Hiff|done]. }
  exists (S n), msg. by rewrite Hrun.
Qed.

Lemma merge_rest_inv h files st fof fr ts t st' :
  metadata_is st fof fr ts →
  run h (for_each files merge_log st) = (t, Ok st') →
  Forall (consistent h fof fr ts) files.
Proof.
  revert st t. induction files as [|f rest IH]; intros st t (H1 & H2 & H3);
    [done|].
  cbn [for_each]. rewrite run_bind, (merge_log_next h f st fof fr ts) by done.
  destruct (h _ (parse_ramd_log_file f)) as [[[[trajs fof'] fr'] ts']|e] eqn:Hh;
    [|done].
  pose proof (consistent_tests h fof fr ts f _ _ _ _ Hh) as Hiff.
  destruct (fof =? fof'); [|done].
  destruct (Qeq_bool fr fr'); [|done].
  destruct (Qeq_bool ts ts'); [|done].
  destruct (run h (for_each rest merge_log (merged st trajs)))
    as [t' [st''|e]] eqn:Hrun; [|done].
  intros [= <- <-]. constructor; [by apply Hiff|].
  eapply (IH (merged st trajs)); [|done]. by split_and!.
Qed.

Lemma run_call_first {X B} h (c : call X) (f : X → prog B) :
  ∃ t, (run h (do c ≫= f)).1 = Event c :: t.
Proof.
  rewrite run_bind, run_do. destruct (h X c) as [x|e]; [|by eexists].
  destruct (run h (f x)). by eexists.
Qed.

Lemma run_header h b m1 m2 :
  prints_return h →
  run h (when b (do (print m1);; do (print m2)))
  = (if b then [Event (print m1); Event (print m2)] else [], Ok ()).
Proof. intros Hp. destruct b; [|done]. simpl. by rewrite !Hp. Qed.

Lemma run_report h b m1 m2 m3 m4 :
  prints_return h →
  run h (when b (do (print m1);; do (print m2);; do (print m3);;
                 do (print m4)))
  = (if b then [Event (print m1); Event (print m2); Event (print m3);
                Event (print m4)] else [], Ok ()).
Proof. intros Hp. destruct b; [|done]. simpl. by rewrite !Hp. Qed.

Lemma differs_not_consistent h fof fr ts files :
  Exists (differs h fof fr ts) files →
  ¬ Forall (consistent h fof fr ts) files.
Proof.
  intros Hex Hall. apply Exists_exists in Hex as (f & Hf & Hd).
  apply (proj1 (Forall_forall _ _) Hall) in Hf.
  destruct Hd as (? & ? & ? & ? & Hh & Hd).
  destruct Hf as (? & ? & ? & ? & Hh' & ? & ? & ?).
  rewrite Hh in Hh'. simplify_eq. by destruct Hd as [?|[?|?]].
Qed.

Lemma first_file_metadata (trajs0 : list Traj) fof fr ts :
  metadata_is
    {| trajectory_list := trajectory_list (@initial_locals Traj) ++ trajs0;
       forceOutFreq := Some fof; forceRAMD := Some fr; timeStep := Some ts;
       trajectories := Some trajs0 |} fof fr ts.
Proof. done. Qed.

Lemma parse_events_parse_or_print files :
  Forall (λ e : event, parse_or_print e = true) (parse_events files).
Proof. apply Forall_fmap, Forall_true. done. Qed.

(** C3: let the parser return for every file and [print] return.  If a later
    file reports a [forceOutFreq], [forceRAMD] or [timeStep] that [==] tells
    from the first file's, the run ends in an [AssertionError] and has made
    no call but [print] and the parser: nothing was condensed, no grid
    built, nothing binned, no matrix assembled.  If every later file agrees,
    the loop returns with all the trajectories merged and the first file's
    metadata, and the run goes on to the condenser. *)
Theorem analyze_log_checks_metadata h (f0 : string) (rest : list string)
    (num_milestones num_xi_bins : Z) (verbose : bool)
    trajs0 fof fr ts :
  0 ≤ num_xi_bins + 1 →
  prints_return h →
  h _ (parse_ramd_log_file f0) = Ok (trajs0, fof, fr, ts) →
  Forall (λ f, is_Ok (h _ (parse_ramd_log_file f))) rest →
  (Exists (differs h fof fr ts) rest →
   ∃ t msg,
     run h (analyze_log (f0 :: rest) num_milestones num_xi_bins verbose)
     = (t, Raise (AssertionError msg))
     ∧ Forall (λ e, parse_or_print e = true) t)
  ∧ (Forall (consistent h fof fr ts) rest →
     ∃ st,
       run h (for_each (f0 :: rest) merge_log initial_locals)
       = (parse_events (f0 :: rest), Ok st)
       ∧ trajectory_list st
         = concat (parsed_trajectories h <$> f0 :: rest)
       ∧ metadata_is st fof fr ts
       ∧ ∃ trajs,
           Event (condense_trajectories trajs)
           ∈ (run h (analyze_log (f0 :: rest) num_milestones num_xi_bins
                       verbose)).1).
Proof.
  intros Hnx Hp Hh Hret.
  destruct (np_linspace_Ok (-1) 1 (num_xi_bins + 1) Hnx) as [ranges Hlin].
  set (st0 := {| trajectory_list := trajectory_list (@initial_locals Traj) ++ trajs0;
       forceOutFreq := Some fof; forceRAMD := Some fr; timeStep := Some ts;
       trajectories := Some trajs0 |}).
  assert (run h (merge_log f0 initial_locals)
          = ([Event (parse_ramd_log_file f0)], Ok st0)) as Hfirst.
  { by rewrite merge_log_first, Hh. }
  split.
  - intros Hex. apply differs_not_consistent in Hex.
    destruct (merge_rest_inconsistent h rest st0 fof fr ts)
      as (n & msg & Hrun); [done..|].
    exists ((if verbose then [Event (print (Using_milestones num_milestones));
                              Event (print (Using_angle_bins num_xi_bins))]
             else []) ++ Event (parse_ramd_log_file f0)
                     :: parse_events (take n rest)), msg.
    split.
    + unfold analyze_log.
      rewrite run_bind, run_header by done. cbv beta iota.
      rewrite run_bind, Hlin, run_lift. cbv beta iota.
      rewrite run_bind. cbn [for_each].
      rewrite run_bind, Hfirst. cbv beta iota. rewrite Hrun. done.
    + apply Forall_app. split; [by destruct verbose; repeat constructor|].
      constructor; [done|]. apply parse_events_parse_or_print.
  - intros Hall.
    pose proof (merge_rest_consistent h rest st0 fof fr ts
                  (first_file_metadata trajs0 fof fr ts) Hall) as Hrun.
    assert (run h (for_each (f0 :: rest) merge_log initial_locals)
            = (parse_events (f0 :: rest), Ok (merged_all h st0 rest))) as Hloop.
    { cbn [for_each]. rewrite run_bind, Hfirst. cbv beta iota.
      by rewrite Hrun. }
    exists (merged_all h st0 rest). split_and!; [done| |done|].
    + cbn. unfold parsed_trajectories at 2. by rewrite Hh.
    + destruct (trajectories (merged_all h st0 rest)) as [trajs|] eqn:Htr.
      2:{ cbn in Htr. by destruct (last rest). }
      exists trajs. unfold analyze_log.
      rewrite run_bind, run_header by done. cbv beta iota.
      rewrite run_bind, Hlin, run_lift. cbv beta iota.
      rewrite run_bind, Hloop. cbv beta iota.
      rewrite run_bind, run_report by done. cbv beta iota.
      rewrite Htr. rewrite run_bind. cbn [read_local run]. cbv beta iota.
      match goal with
      | |- context [run h (do (condense_trajectories trajs) ≫= ?f)] =>
          destruct (run_call_first h (condense_trajectories trajs) f)
            as [t Ht];
          destruct (run h (do (condense_trajectories trajs) ≫= f)) as [t' r]
      end.
      cbn in Ht. subst t'. cbn [fst].
      rewrite !elem_of_app. do 5 right. left.
Qed.

Lemma merge_logs_loaded h files t st :
  run h (for_each files merge_log initial_locals) = (t, Ok st) →
  loaded h files st.
Proof.
  destruct files as [|f0 rest].
  { intros [= _ <-]. done. }
  cbn [for_each]. rewrite run_bind, merge_log_first by done.
  destruct (h _ (parse_ramd_log_file f0)) as [[[[trajs0 fof] fr] ts]|e] eqn:Hh;
    [|done].
  cbv beta iota.
  set (st0 := {| trajectory_list := _ |}).
  destruct (run h (for_each rest merge_log st0)) as [t' [st'|e]] eqn:Hrun;
    [|done].
  intros [= _ <-].
  pose proof (merge_rest_inv h rest st0 fof fr ts t' st'
                (first_file_metadata trajs0 fof fr ts) Hrun) as Hall.
  rewrite (merge_rest_consistent h rest st0 fof fr ts
             (first_file_metadata trajs0 fof fr ts) Hall) in Hrun.
  injection Hrun as _ <-. split_and!.
  - cbn. unfold parsed_trajectories at 2. by rewrite Hh.
  - cbn [trajectories merged_all st0]. rewrite last_cons.
    destruct (last rest); [done|]. cbn. unfold parsed_trajectories.
    by rewrite Hh.
  - by exists trajs0, fof, fr, ts.
Qed.

Lemma hoare_call {X} h P (c : call X) :
  P (Event c) → hoare h P (do c) (λ x, h X c = Ok x).
Proof. intros HP. by apply hoare_do. Qed.

Lemma hoare_result {R} h P (r : result R) : hoare h P (lift r) (λ a, r = Ok a).
Proof. by apply hoare_lift. Qed.

Lemma hoare_post {R} h P (p : prog R) (Q : R → Prop) :
  hoare h P p (λ _, True) → (∀ t r, run h p = (t, Ok r) → Q r) →
  hoare h P p Q.
Proof.
  intros [HP _] HQ. split; [done|]. intros r Hr.
  destruct (run h p) as [t r'] eqn:E. simpl in Hr. subst r'. by eapply HQ.
Qed.

Ltac calls_step :=
  match goal with
  | |- hoare _ _ (_ ≫= _) _ => eapply (hoare_bind _ _ _ _ (λ _, True))
  | |- hoare _ _ (when _ _) _ => apply hoare_when
  | |- hoare _ _ (do _) _ => apply hoare_do; [|done]
  | |- hoare _ _ (lift _) _ => by apply hoare_lift
  | |- hoare _ _ (Return _) _ => by apply hoare_Return
  | |- hoare _ _ (Throw _) _ => apply hoare_Throw
  | |- hoare _ _ (for_each _ _ _) _ =>
      apply (hoare_for_each _ _ _ _ (λ _, True)); [done|]
  | |- hoare _ _ (py_assert ?b _) _ => unfold py_assert; destruct b
  | |- hoare _ _ (read_local ?v) _ => unfold read_local; destruct v
  | |- hoare _ _ (merge_log _ _) _ => unfold merge_log
  | |- hoare _ _ (model_bin _ _ _ _ _ _ _) _ => unfold model_bin
  | |- hoare _ _ (match ?x with _ => _ end) _ => destruct x
  | |- ∀ _, _ => intros
  end.

Ltac calls_other :=
  repeat calls_step; try done;
  try match goal with Hc : _ = Some _ |- _ => by cbn in Hc end.

Lemma merge_log_calls h (P : event → Prop) f st :
  P (Event (parse_ramd_log_file f)) →
  hoare h P (merge_log f st) (λ _, True).
Proof.
  intros HP. unfold merge_log. repeat calls_step; done.
Qed.

Lemma merge_logs_calls h (P : event → Prop) files :
  (∀ f, f ∈ files → P (Event (parse_ramd_log_file f))) →
  hoare h P (for_each files merge_log initial_locals) (loaded h files).
Proof.
  intros HP. apply hoare_post; [|apply merge_logs_loaded].
  apply hoare_for_each; [done|]. intros f st Hf _.
  by apply merge_log_calls, HP.
Qed.

(** *** Runs that return *)

Lemma run_bind_inv {A B} h (p : prog A) (f : A → prog B) t b :
  run h (p ≫= f) = (t, Ok b) →
  ∃ t1 a t2, run h p = (t1, Ok a) ∧ run h (f a) = (t2, Ok b) ∧ t = t1 ++ t2.
Proof.
  rewrite run_bind. destruct (run h p) as [t1 [a|e]]; [|done].
  destruct (run h (f a)) as [t2 r] eqn:E. intros [= <- ->].
  by exists t1, a, t2.
Qed.

Lemma run_do_inv {X} h (c : call X) t x :
  run h (do c) = (t, Ok x) → h X c = Ok x ∧ t = [Event c].
Proof. rewrite run_do. destruct (h X c); [|done]. by intros [= <- <-]. Qed.

Lemma run_lift_inv {A} h (r : result A) t a :
  run h (lift r) = (t, Ok a) → r = Ok a ∧ t = [].
Proof. rewrite run_lift. by intros [= <- <-]. Qed.

Lemma run_read_local_inv {A} h (v : option A) t a :
  run h (read_local v) = (t, Ok a) → v = Some a ∧ t = [].
Proof. destruct v; [|done]. by intros [= <- <-]. Qed.

Lemma run_header_inv h b m1 m2 t :
  run h (when b (do (print m1);; do (print m2))) = (t, Ok ()) →
  t = if b then [Event (print m1); Event (print m2)] else [].
Proof.
  destruct b; [|by intros [= <-]]. cbn [when]. intros Hrun.
  apply run_bind_inv in Hrun as (? & [] & ? & H1 & H2 & ->).
  apply run_do_inv in H1 as [_ ->]. by apply run_do_inv in H2 as [_ ->].
Qed.

Lemma run_report_inv h b m1 m2 m3 m4 t :
  run h (when b (do (print m1);; do (print m2);; do (print m3);;
                 do (print m4))) = (t, Ok ()) →
  t = if b then [Event (print m1); Event (print m2); Event (print m3);
                 Event (print m4)] else [].
Proof.
  destruct b; [|by intros [= <-]]. cbn [when]. intros Hrun.
  apply run_bind_inv in Hrun as (? & [] & ? & H1 & Hrun & ->).
  apply run_bind_inv in Hrun as (? & [] & ? & H2 & Hrun & ->).
  apply run_bind_inv in Hrun as (? & [] & ? & H3 & H4 & ->).
  apply run_do_inv in H1 as [_ ->]. apply run_do_inv in H2 as [_ ->].
  apply run_do_inv in H3 as [_ ->]. by apply run_do_inv in H4 as [_ ->].
Qed.

(** One iteration of the loop over the bins makes one call of the model
    builder, on the bin's fragments. *)
Lemma model_bin_inv h verbose xi_bins milestones frame_time num_milestones
    i profiles t profiles' :
  run h (model_bin verbose xi_bins milestones frame_time num_milestones
           i profiles) = (t, Ok profiles') →
  ∃ xi_bin_trajs,
    xi_bins !! i = Some xi_bin_trajs
    ∧ omap model_call_of t
      = [(xi_bin_trajs, milestones, frame_time, num_milestones)]
    ∧ Forall (λ e, beta_of e = None) t
    ∧ length profiles' = length profiles.
Proof.
  unfold model_bin. intros Hrun.
  apply run_bind_inv in Hrun as (t0 & [] & ? & H0 & Hrun & ->).
  apply run_bind_inv in Hrun as (? & b & ? & H1 & Hrun & ->).
  apply run_lift_inv in H1 as [H1 ->].
  apply run_bind_inv in Hrun
    as (? & [[[count_matrix time_vector] rate_matrix] transition_matrix]
        & ? & H2 & Hrun & ->).
  apply run_do_inv in H2 as [_ ->].
  apply run_bind_inv in Hrun as (? & time_profile_matrix & ? & H3 & H4 & ->).
  apply run_do_inv in H3 as [_ ->]. injection H4 as <- <-.
  unfold subscript in H1. destruct (xi_bins !! i) as [b'|] eqn:Hb; [|done].
  injection H1 as ->. exists b.
  assert (omap model_call_of t0 = [] ∧ Forall (λ e, beta_of e = None) t0)
    as [Ht0 Hb0].
  { destruct verbose; [|by injection H0 as <-]. cbn [when] in H0.
    apply run_bind_inv in H0 as (? & b'' & ? & H5 & H6 & ->).
    apply run_lift_inv in H5 as [_ ->]. apply run_do_inv in H6 as [_ ->].
    by repeat constructor. }
  split_and!; [done| | |by rewrite length_insert].
  - rewrite !omap_app, Ht0. done.
  - rewrite !Forall_app. by repeat constructor.
Qed.

Lemma model_loop_inv h verbose xi_bins milestones frame_time num_milestones
    l profiles t profiles' :
  run h (for_each l (model_bin verbose xi_bins milestones frame_time
                       num_milestones) profiles) = (t, Ok profiles') →
  Some <$> omap model_call_of t
  = (λ i, (λ b, (b, milestones, frame_time, num_milestones))
            <$> xi_bins !! i) <$> l
  ∧ Forall (λ e, beta_of e = None) t
  ∧ length profiles' = length profiles.
Proof.
  revert profiles t. induction l as [|i l IH]; intros profiles t.
  { by intros [= <- <-]. }
  cbn [for_each]. intros Hrun.
  apply run_bind_inv in Hrun as (t1 & p1 & t2 & H1 & H2 & ->).
  apply model_bin_inv in H1 as (b & Hb & Hc & Hbeta & Hlen).
  apply IH in H2 as (Hcs & Hbetas & Hlen').
  split_and!.
  - rewrite omap_app, Hc, fmap_cons, Hb. cbn. by rewrite Hcs.
  - by apply Forall_app.
  - congruence.
Qed.

Lemma merge_logs_trace h files t st :
  run h (for_each files merge_log initial_locals) = (t, Ok st) →
  t = parse_events files.
Proof.
  destruct files as [|f0 rest].
  { by intros [= <- _]. }
  cbn [for_each]. rewrite run_bind, merge_log_first by done.
  destruct (h _ (parse_ramd_log_file f0)) as [[[[trajs0 fof] fr] ts]|e] eqn:Hh;
    [|done].
  cbv beta iota.
  set (st0 := {| trajectory_list := _ |}).
  destruct (run h (for_each rest merge_log st0)) as [t' [st'|e]] eqn:Hrun;
    [|done].
  intros [= <- _].
  pose proof (merge_rest_inv h rest st0 fof fr ts t' st'
                (first_file_metadata trajs0 fof fr ts) Hrun) as Hall.
  rewrite (merge_rest_consistent h rest st0 fof fr ts
             (first_file_metadata trajs0 fof fr ts) Hall) in Hrun.
  by injection Hrun as <- _.
Qed.

(** The run of [analyze_log] when it returns: every stage returned, and the
    calls are those of the stages in order. *)
Lemma analyze_log_returns h files num_milestones num_xi_bins verbose t :
  run h (analyze_log files num_milestones num_xi_bins verbose) = (t, Ok ()) →
  ∃ xi_bins_ranges st trajs one_dim_trajs milestones min_location
    max_location starting_cv_val xi_bins frame_time xi_bin_time_profiles
    calc time_estimate t_header t_report t_models,
    np_linspace (-1) 1 (num_xi_bins + 1) = Ok xi_bins_ranges
    ∧ loaded h files st
    ∧ trajectories st = Some trajs
    ∧ h _ (condense_trajectories trajs) = Ok one_dim_trajs
    ∧ h _ (uniform_milestone_locations one_dim_trajs num_milestones)
      = Ok (milestones, min_location, max_location, starting_cv_val)
    ∧ bin_trajectories xi_bins_ranges num_xi_bins one_dim_trajs = Ok xi_bins
    ∧ mul_float_int (timeStep st) (forceOutFreq st) = Ok frame_time
    ∧ Some <$> omap model_call_of t_models
      = (λ i, (λ b, (b, milestones, frame_time, num_milestones))
                <$> xi_bins !! i) <$> range num_xi_bins
    ∧ Forall (λ e, parse_or_print e = true) t_header
    ∧ Forall (λ e, parse_or_print e = true) t_report
    ∧ Forall (λ e, beta_of e = None) t_models
    ∧ length xi_bin_time_profiles = Z.to_nat num_xi_bins
    ∧ t = t_header ++ parse_events files ++ t_report
          ++ [Event (condense_trajectories trajs);
              Event (uniform_milestone_locations one_dim_trajs
                       num_milestones)]
          ++ t_models
          ++ [Event (functional_expansion_1d_ramd xi_bin_time_profiles
                       (forceRAMD st) 0 min_location max_location
                       starting_cv_val);
              Event (make_second_order_time_estimate calc);
              Event (print (Show_time_estimate time_estimate))].
Proof.
  unfold analyze_log. intros Hrun.
  apply run_bind_inv in Hrun as (t_header & [] & ? & Hhead & Hrun & ->).
  apply run_header_inv in Hhead.
  apply run_bind_inv in Hrun as (? & ranges & ? & Hlin & Hrun & ->).
  apply run_lift_inv in Hlin as [Hlin ->].
  apply run_bind_inv in Hrun as (t_loop & st & ? & Hloop & Hrun & ->).
  pose proof (merge_logs_trace _ _ _ _ Hloop) as ->.
  apply merge_logs_loaded in Hloop.
  apply run_bind_inv in Hrun as (t_report & [] & ? & Hrep & Hrun & ->).
  apply run_report_inv in Hrep.
  apply run_bind_inv in Hrun as (? & trajs & ? & Htr & Hrun & ->).
  apply run_read_local_inv in Htr as [Htr ->].
  apply run_bind_inv in Hrun as (? & one_dim_trajs & ? & Hcond & Hrun & ->).
  apply run_do_inv in Hcond as [Hcond ->].
  apply run_bind_inv in Hrun
    as (? & [[[milestones min_location] max_location] starting_cv_val]
        & ? & Hgrid & Hrun & ->).
  apply run_do_inv in Hgrid as [Hgrid ->].
  apply run_bind_inv in Hrun as (? & xi_bins & ? & Hbin & Hrun & ->).
  apply run_lift_inv in Hbin as [Hbin ->].
  apply run_bind_inv in Hrun as (? & frame_time & ? & Hft & Hrun & ->).
  apply run_lift_inv in Hft as [Hft ->].
  apply run_bind_inv in Hrun as (? & profiles0 & ? & Hz & Hrun & ->).
  apply run_lift_inv in Hz as [Hz ->].
  apply run_bind_inv in Hrun as (t_models & profiles & ? & Hmod & Hrun & ->).
  apply model_loop_inv in Hmod as (Hcalls & Hbeta & Hlen).
  apply run_bind_inv in Hrun as (? & calc & ? & Hexp & Hrun & ->).
  apply run_do_inv in Hexp as [_ ->].
  apply run_bind_inv in Hrun as (? & time_estimate & ? & Hest & Hpr & ->).
  apply run_do_inv in Hest as [_ ->]. apply run_do_inv in Hpr as [_ ->].
  exists ranges, st, trajs, one_dim_trajs, milestones, min_location,
    max_location, starting_cv_val, xi_bins, frame_time, profiles, calc,
    time_estimate, t_header, t_report, t_models.
  split_and!; try done.
  - subst t_header. by destruct verbose; repeat constructor.
  - subst t_report. by destruct verbose; repeat constructor.
  - rewrite Hlen. unfold np_zeros3 in Hz.
    destruct (_ || _); [done|]. injection Hz as <-.
    by rewrite length_replicate.
Qed.

Lemma omap_nil_Forall {A B} (g : A → option B) (l : list A) :
  Forall (λ x, g x = None) l → omap g l = [].
Proof. induction 1 as [|x l Hx _ IH]; [done|]. cbn. by rewrite Hx. Qed.

Lemma parse_or_print_no_beta (t : list event) :
  Forall (λ e, parse_or_print e = true) t → Forall (λ e, beta_of e = None) t.
Proof. intros H. eapply Forall_impl; [done|]. by intros [X []]. Qed.

Lemma parse_or_print_no_model (t : list event) :
  Forall (λ e, parse_or_print e = true) t →
  Forall (λ e, model_call_of e = None) t.
Proof. intros H. eapply Forall_impl; [done|]. by intros [X []]. Qed.

(** C6: whatever the files, the parameters and what the modules return,
    every call of [functional_expansion_1d_ramd] in a run of [analyze_log]
    has [beta = 0], and a run that returns has made exactly one. *)
Theorem analyze_log_beta_zero h (ramd_log_file_list : list string)
    (num_milestones num_xi_bins : Z) (verbose : bool) :
  Forall (λ e, ∀ beta, beta_of e = Some beta → beta = 0%Q)
    (run h (analyze_log ramd_log_file_list num_milestones num_xi_bins
              verbose)).1
  ∧ ((run h (analyze_log ramd_log_file_list num_milestones num_xi_bins
               verbose)).2 = Ok () →
     omap beta_of
       (run h (analyze_log ramd_log_file_list num_milestones num_xi_bins
                 verbose)).1 = [0%Q]).
Proof.
  split.
  - assert (hoare h (λ e, ∀ beta, beta_of e = Some beta → beta = 0%Q)
              (analyze_log ramd_log_file_list num_milestones num_xi_bins
                 verbose) (λ _, True)) as [H _]; [|done].
    unfold analyze_log. repeat calls_step; try done.
    match goal with Hb : beta_of _ = Some _ |- _ => by injection Hb end.
  - destruct (run h _) as [t r] eqn:Hrun. cbn. intros ->.
    apply analyze_log_returns in Hrun
      as (ranges & st & trajs & one_dim_trajs & milestones & mn & mx & sc
          & xi_bins & ft & profiles & calc & est & t_header & t_report
          & t_models & _ & _ & _ & _ & _ & _ & _ & _ & Hh & Hr & Hm & _ & ->).
    rewrite !omap_app.
    rewrite (omap_nil_Forall _ t_header) by by apply parse_or_print_no_beta.
    rewrite (omap_nil_Forall _ t_report) by by apply parse_or_print_no_beta.
    rewrite (omap_nil_Forall _ t_models) by done.
    rewrite (omap_nil_Forall _ (parse_events _))
      by apply parse_or_print_no_beta, parse_events_parse_or_print.
    done.
Qed.

Lemma loaded_frame_time h files st frame_time :
  loaded h files st →
  mul_float_int (timeStep st) (forceOutFreq st) = Ok frame_time →
  ∃ fof fr ts, run_metadata h files fof fr ts
               ∧ frame_time = (ts * inject_Z fof)%Q.
Proof.
  intros (_ & _ & Hmeta) Hmul. destruct files as [|f0 rest].
  { destruct Hmeta as (H1 & _ & H3). by rewrite H1, H3 in Hmul. }
  destruct Hmeta as (trajs0 & fof & fr & ts & Hh & (H1 & H2 & H3) & Hall).
  rewrite H1, H3 in Hmul. injection Hmul as <-.
  exists fof, fr, ts. split; [|done]. by exists f0, rest, trajs0.
Qed.

(** C7: every call of [make_milestoning_model] in a run of [analyze_log]
    has [frame_time = timeStep * forceOutFreq], the values the first file
    reports and every later file agrees with; a run that returns has made
    one such call per bin, in the order of the bins. *)
Theorem analyze_log_frame_time h (ramd_log_file_list : list string)
    (num_milestones num_xi_bins : Z) (verbose : bool) :
  Forall (λ e, ∀ frame_time, frame_time_of e = Some frame_time →
            ∃ fof fr ts, run_metadata h ramd_log_file_list fof fr ts
                         ∧ frame_time = (ts * inject_Z fof)%Q)
    (run h (analyze_log ramd_log_file_list num_milestones num_xi_bins
              verbose)).1
  ∧ ((run h (analyze_log ramd_log_file_list num_milestones num_xi_bins
               verbose)).2 = Ok () →
     ∃ fof fr ts milestones xi_bins,
       run_metadata h ramd_log_file_list fof fr ts
       ∧ length xi_bins = Z.to_nat num_xi_bins
       ∧ omap model_call_of
           (run h (analyze_log ramd_log_file_list num_milestones num_xi_bins
                     verbose)).1
         = (λ xi_bin_trajs,
              (xi_bin_trajs, milestones, (ts * inject_Z fof)%Q,
               num_milestones)) <$> xi_bins).
Proof.
  split.
  - match goal with |- Forall ?P _ =>
      assert (hoare h P (analyze_log ramd_log_file_list num_milestones
                           num_xi_bins verbose) (λ _, True)) as [H _];
        [|done]
    end.
    unfold analyze_log.
    eapply (hoare_bind _ _ _ _ (λ _, True)); [calls_other|intros _ _].
    eapply hoare_bind; [apply hoare_result|intros ranges _].
    eapply hoare_bind; [apply merge_logs_calls; calls_other|intros st Hst].
    eapply (hoare_bind _ _ _ _ (λ _, True)); [calls_other|intros _ _].
    eapply (hoare_bind _ _ _ _ (λ _, True)); [calls_other|intros trajs _].
    eapply hoare_bind; [apply hoare_call; calls_other|intros one_dim_trajs _].
    eapply hoare_bind; [apply hoare_call; calls_other|].
    intros [[[milestones mn] mx] sc] _.
    eapply hoare_bind; [apply hoare_result|intros xi_bins _].
    eapply hoare_bind; [apply hoare_result|intros frame_time Hft].
    destruct (loaded_frame_time h _ st frame_time Hst Hft)
      as (fof & fr & ts & Hmeta & ->).
    calls_other.
    match goal with Hf : frame_time_of _ = Some _ |- _ =>
      injection Hf as <- end.
    by exists fof, fr, ts.
  - destruct (run h _) as [t r] eqn:Hrun. cbn. intros ->.
    apply analyze_log_returns in Hrun
      as (ranges & st & trajs & one_dim_trajs & milestones & mn & mx & sc
          & xi_bins & ft & profiles & calc & est & t_header & t_report
          & t_models & _ & Hld & _ & _ & _ & Hbin & Hmul & Hcalls & Hh & Hr
          & _ & _ & ->).
    destruct (loaded_frame_time h _ st ft Hld Hmul)
      as (fof & fr & ts & Hmeta & ->).
    apply bin_trajectories_length in Hbin.
    exists fof, fr, ts, milestones, xi_bins. split_and!; [done..|].
    rewrite fmap_lookup_range in Hcalls by done.
    apply (inj (fmap Some)) in Hcalls.
    rewrite !omap_app.
    rewrite (omap_nil_Forall _ t_header) by by apply parse_or_print_no_model.
    rewrite (omap_nil_Forall _ t_report) by by apply parse_or_print_no_model.
    rewrite (omap_nil_Forall _ (parse_events _))
      by apply parse_or_print_no_model, parse_events_parse_or_print.
    cbn. by rewrite app_nil_r.
Qed.

(** A call seen in the run of [p ≫= f] that [p] cannot have made was made by
    [f], after [p] returned. *)
Lemma run_bind_reach {A B G} h (p : prog A) (f : A → prog B)
    (g : event → option G) x :
  x ∈ omap g (run h (p ≫= f)).1 →
  hoare h (λ e, g e = None) p (λ _, True) →
  ∃ t1 a, run h p = (t1, Ok a)
          ∧ x ∈ omap g (run h (f a)).1
          ∧ run h (p ≫= f) = (t1 ++ (run h (f a)).1, (run h (f a)).2).
Proof.
  intros Hx [Hg _]. rewrite run_bind in Hx |- *.
  apply omap_nil_Forall in Hg.
  destruct (run h p) as [t1 [a|e]]; cbn in Hg.
  - exists t1, a. destruct (run h (f a)) as [t2 r]. cbn in *.
    rewrite omap_app, Hg in Hx. done.
  - cbn in Hx. rewrite Hg in Hx. by apply elem_of_nil in Hx.
Qed.

Lemma elem_of_omap_app_r {A B} (g : A → option B) (l1 l2 : list A) y :
  y ∈ omap g l2 → y ∈ omap g (l1 ++ l2).
Proof. intros Hy. rewrite omap_app, elem_of_app. by right. Qed.

Lemma loaded_frame_time_Ok h files st trajs :
  loaded h files st → trajectories st = Some trajs →
  ∃ frame_time,
    mul_float_int (timeStep st) (forceOutFreq st) = Ok frame_time.
Proof.
  intros (_ & Hlast & Hmeta) Htr. destruct files as [|f0 rest].
  { cbn in Hlast. congruence. }
  destruct Hmeta as (trajs0 & fof & fr & ts & _ & (H1 & _ & H3) & _).
  rewrite H1, H3. by eexists.
Qed.

(** The run of [analyze_log] that has reached the grid builder with the
    fragments [one_dim_trajs] continues with the binner on them. *)
Lemma analyze_log_reaches_binner h files num_milestones num_xi_bins verbose
    one_dim_trajs :
  one_dim_trajs
  ∈ omap grid_input
      (run h (analyze_log files num_milestones num_xi_bins verbose)).1 →
  is_Ok (h _ (uniform_milestone_locations one_dim_trajs num_milestones)) →
  ∃ xi_bins_ranges st,
    np_linspace (-1) 1 (num_xi_bins + 1) = Ok xi_bins_ranges
    ∧ loaded h files st
    ∧ is_Some (trajectories st)
    ∧ (∀ e, bin_trajectories xi_bins_ranges num_xi_bins one_dim_trajs
            = Raise e →
         (run h (analyze_log files num_milestones num_xi_bins verbose)).2
         = Raise e)
    ∧ (∀ xi_bins,
         bin_trajectories xi_bins_ranges num_xi_bins one_dim_trajs
         = Ok xi_bins →
         num_xi_bins = 0 → 0 ≤ num_milestones →
         0%Q ∈ omap beta_of
                 (run h (analyze_log files num_milestones num_xi_bins
                           verbose)).1).
Proof.
  intros Hin Hgrid. unfold analyze_log in *.
  apply run_bind_reach in Hin as (? & [] & _ & Hin & ->); [|calls_other].
  apply run_bind_reach in Hin as (? & ranges & Hlin & Hin & ->);
    [|calls_other].
  apply run_lift_inv in Hlin as [Hlin _].
  apply run_bind_reach in Hin as (? & st & Hloop & Hin & ->); [|calls_other].
  apply merge_logs_loaded in Hloop.
  apply run_bind_reach in Hin as (? & [] & _ & Hin & ->); [|calls_other].
  apply run_bind_reach in Hin as (? & trajs & Htr & Hin & ->); [|calls_other].
  apply run_read_local_inv in Htr as [Htr _].
  apply run_bind_reach in Hin as (? & one_dim' & Hcond & Hin & ->);
    [|calls_other].
  cbn [fst snd].
  rewrite run_bind, run_do in Hin |- *.
  destruct (h _ (uniform_milestone_locations one_dim' num_milestones))
    as [[[[milestones mn] mx] sc]|e'] eqn:Hg.
  2:{ cbn in Hin. apply list_elem_of_singleton in Hin as ->.
      rewrite Hg in Hgrid. by destruct Hgrid. }
  match type of Hin with
  | context [run h ?k] =>
      assert (hoare h (λ e, grid_input e = None) k (λ _, True)) as [Hk _]
        by calls_other;
      apply omap_nil_Forall in Hk; destruct (run h k) as [t2 r] eqn:Hrun
  end.
  cbn in Hin, Hk. rewrite Hk in Hin.
  apply list_elem_of_singleton in Hin as ->.
  exists ranges, st. split_and!; [done|done|by rewrite Htr| |].
  - intros e Hbin.
    rewrite run_bind, Hbin, run_lift in Hrun. by injection Hrun as _ <-.
  - intros xi_bins Hbin -> Hnm. do 6 apply elem_of_omap_app_r. cbn [fst].
    apply elem_of_omap_app_r.
    rewrite run_bind, Hbin, run_lift in Hrun. cbv beta iota in Hrun.
    destruct (loaded_frame_time_Ok h files st trajs Hloop Htr) as [ft Hft].
    rewrite run_bind, Hft, run_lift in Hrun. cbv beta iota in Hrun.
    assert (np_zeros3 0 num_milestones num_milestones = Ok []) as Hz.
    { unfold np_zeros3. by destruct (Z.ltb_spec num_milestones 0); [lia|]. }
    rewrite run_bind, Hz, run_lift in Hrun. cbv beta iota in Hrun.
    rewrite run_bind in Hrun. change (range 0) with (@nil nat) in Hrun.
    cbn [for_each run] in Hrun.
    match type of Hrun with
    | context [run h (do ?c ≫= ?k)] =>
        destruct (run_call_first h c k) as [t3 Ht3];
        destruct (run h (do c ≫= k)) as [t3' r3]; cbn in Ht3; subst t3'
    end.
    cbn in Hrun. injection Hrun as <- _. cbn. left.
Qed.

(** C10: nothing checks [num_xi_bins >= 1].  With [num_xi_bins = 0] the
    binner raises the not-placed exception for the first fragment, when it
    has a first frame, and returns no bins for no fragments; a run of
    [analyze_log] whose grid builder returned on fragments [one_dim_trajs]
    ends in that exception when there is a first fragment, and goes on to
    the expander when there is none (and [num_milestones] is no negative
    dimension). *)
Theorem analyze_log_zero_bins h (ramd_log_file_list : list string)
    (num_milestones : Z) (verbose : bool) :
  (∀ trajectory rest traj_xi,
     first_xi trajectory = Ok traj_xi →
     xi_binner 0 (trajectory :: rest) = Raise (Exception_xi_not_placed traj_xi))
  ∧ xi_binner 0 [] = Ok []
  ∧ (∀ one_dim_trajs,
       one_dim_trajs
       ∈ omap grid_input
           (run h (analyze_log ramd_log_file_list num_milestones 0 verbose)).1 →
       is_Ok (h _ (uniform_milestone_locations one_dim_trajs num_milestones)) →
       match one_dim_trajs with
       | [] =>
           0 ≤ num_milestones →
           0%Q ∈ omap beta_of
                   (run h (analyze_log ramd_log_file_list num_milestones 0
                             verbose)).1
       | trajectory :: _ =>
           ∀ traj_xi, first_xi trajectory = Ok traj_xi →
           (run h (analyze_log ramd_log_file_list num_milestones 0 verbose)).2
           = Raise (Exception_xi_not_placed traj_xi)
       end).
Proof.
  split_and!.
  - intros tr rest xi Hx. unfold xi_binner. cbn. by rewrite Hx.
  - done.
  - intros one_dim_trajs Hin Hgrid.
    destruct (analyze_log_reaches_binner h _ _ _ _ _ Hin Hgrid)
      as (ranges & st & Hlin & _ & _ & Hraise & Hok).
    injection Hlin as <-.
    destruct one_dim_trajs as [|tr rest].
    + intros Hnm. by apply (Hok []).
    + intros xi Hx. apply Hraise.
      unfold bin_trajectories. cbn. by rewrite Hx.
Qed.

Lemma hoare_read_local {A} h P (v : option A) :
  hoare h P (read_local v) (λ a, v = Some a).
Proof.
  destruct v as [a|]; [|apply hoare_Throw]. by apply hoare_Return.
Qed.

(** Whatever the files, the condenser is handed what the parser returned for
    the last of them, the value [trajectories] holds when the loop ends. *)
Lemma condenser_receives_last_file h (ramd_log_file_list : list string)
    (num_milestones num_xi_bins : Z) (verbose : bool) :
  Forall (λ e, ∀ trajs, condenser_input e = Some trajs →
            ∃ f, last ramd_log_file_list = Some f
                 ∧ trajs = parsed_trajectories h f)
    (run h (analyze_log ramd_log_file_list num_milestones num_xi_bins
              verbose)).1.
Proof.
  match goal with |- Forall ?P _ =>
    assert (hoare h P (analyze_log ramd_log_file_list num_milestones
                         num_xi_bins verbose) (λ _, True)) as [H _];
      [|done]
  end.
  unfold analyze_log.
  eapply (hoare_bind _ _ _ _ (λ _, True)); [calls_other|intros _ _].
  eapply hoare_bind; [apply hoare_result|intros ranges _].
  eapply hoare_bind; [apply merge_logs_calls; calls_other|intros st Hst].
  eapply (hoare_bind _ _ _ _ (λ _, True)); [calls_other|intros _ _].
  eapply hoare_bind; [apply hoare_read_local|intros trajs Htr].
  destruct Hst as (_ & Hlast & _). rewrite Htr in Hlast.
  destruct (last ramd_log_file_list) as [f|] eqn:Hf; [|done].
  injection Hlast as ->.
  calls_other.
  match goal with Hc : condenser_input _ = Some _ |- _ =>
    injection Hc as <- end.
  by exists f.
Qed.

(** *** Runs that differ in what the analysis does not depend on *)










(** ** More on the runs *)

(** X8: with no files (and a sample count [np.linspace] accepts) the run
    prints the header and a report of 0 trajectories and [None] metadata,
    and ends in [UnboundLocalError] at line 53, where [trajectories] was
    never assigned; nothing is parsed or condensed. *)
Theorem analyze_log_no_files h (num_milestones num_xi_bins : Z)
    (verbose : bool) :
  -1 ≤ num_xi_bins → prints_return h →
  run h (analyze_log [] num_milestones num_xi_bins verbose)
  = (header num_milestones num_xi_bins verbose
     ++ report 0 None None None verbose,
     Raise UnboundLocalError).
Proof.
  intros Hnx Hp.
  destruct (np_linspace_Ok (-1) 1 (num_xi_bins + 1)) as [ranges Hlin]; [lia|].
  unfold analyze_log.
  rewrite run_bind, run_header by done. cbv beta iota.
  rewrite run_bind, Hlin, run_lift. cbv beta iota.
  rewrite run_bind. cbn [for_each run]. cbv beta iota.
  rewrite run_bind, run_report by done. cbv beta iota.
  by destruct verbose.
Qed.

(** X9: with [num_xi_bins < -1] the call of [np.linspace] on line 25 raises
    [ValueError] before any file is opened, whatever the files. *)
Theorem analyze_log_negative_bins h (ramd_log_file_list : list string)
    (num_milestones num_xi_bins : Z) (verbose : bool) :
  num_xi_bins < -1 → prints_return h →
  run h (analyze_log ramd_log_file_list num_milestones num_xi_bins verbose)
  = (header num_milestones num_xi_bins verbose, Raise ValueError).
Proof.
  intros Hnx Hp. unfold analyze_log.
  rewrite run_bind, run_header by done. cbv beta iota.
  rewrite run_bind, np_linspace_negative, run_lift by lia.
  by destruct verbose.
Qed.

Lemma run_for_each_app {A S} h (l1 l2 : list A) (body : A → S → prog S) s :
  run h (for_each (l1 ++ l2) body s)
  = match run h (for_each l1 body s) with
    | (t, Ok s') =>
        let '(t', r) := run h (for_each l2 body s') in (t ++ t', r)
    | (t, Raise e) => (t, Raise e)
    end.
Proof.
  revert s. induction l1 as [|x l1 IH]; intros s.
  { cbn. by destruct (run h (for_each l2 body s)). }
  cbn [for_each app]. rewrite !run_bind.
  destruct (run h (body x s)) as [t [s1|e]]; [|done].
  rewrite IH. destruct (run h (for_each l1 body s1)) as [t1 [s2|e]]; [|done].
  destruct (run h (for_each l2 body s2)) as [t2 r].
  by rewrite (assoc_L (++)).
Qed.

(** X10: the run stops at the first file that disagrees with the first
    one, with the message of the first of the three asserts that fails
    ([forceOutFreq], then [forceRAMD], then [timeStep]), and the files after
    it are not parsed. *)
Theorem analyze_log_first_mismatch h (f0 f : string)
    (pre post : list string) (num_milestones num_xi_bins : Z)
    (verbose : bool) trajs0 fof fr ts trajs fof' fr' ts' :
  -1 ≤ num_xi_bins → prints_return h →
  h _ (parse_ramd_log_file f0) = Ok (trajs0, fof, fr, ts) →
  Forall (consistent h fof fr ts) pre →
  h _ (parse_ramd_log_file f) = Ok (trajs, fof', fr', ts') →
  ∀ msg,
    (fof' ≠ fof
     ∧ msg = "RAMD logs contain differing forceOutFreq values."%string)
    ∨ (fof' = fof ∧ ¬ (fr' == fr)%Q
       ∧ msg = "RAMD logs contain differing forceRAMD values."%string)
    ∨ (fof' = fof ∧ (fr' == fr)%Q ∧ ¬ (ts' == ts)%Q
       ∧ msg = "RAMD logs contain differing timeStep values."%string) →
    run h (analyze_log (f0 :: pre ++ f :: post) num_milestones num_xi_bins
             verbose)
    = (header num_milestones num_xi_bins verbose
       ++ parse_events (f0 :: pre ++ [f]),
       Raise (AssertionError msg)).
Proof.
  intros Hnx Hp Hh0 Hpre Hh msg Hmsg.
  destruct (np_linspace_Ok (-1) 1 (num_xi_bins + 1)) as [ranges Hlin]; [lia|].
  set (st0 := {| trajectory_list := trajectory_list (@initial_locals Traj) ++ trajs0;
       forceOutFreq := Some fof; forceRAMD := Some fr; timeStep := Some ts;
       trajectories := Some trajs0 |}).
  assert (metadata_is (merged_all h st0 pre) fof fr ts) as Hmeta by done.
  assert (run h (merge_log f (merged_all h st0 pre))
          = ([Event (parse_ramd_log_file f)], Raise (AssertionError msg)))
    as Hbad.
  { rewrite (merge_log_next h f _ fof fr ts) by apply Hmeta. rewrite Hh.
    f_equal.
    destruct Hmsg as [[Hne ->]|[(-> & Hne & ->)|(-> & Heq & Hne & ->)]].
    - by destruct (Z.eqb_spec fof fof') as [->|].
    - rewrite Z.eqb_refl.
      destruct (Qeq_bool fr fr') eqn:E; [|done].
      apply Qeq_bool_iff in E. destruct Hne. by symmetry.
    - rewrite Z.eqb_refl.
      destruct (Qeq_bool fr fr') eqn:E.
      + destruct (Qeq_bool ts ts') eqn:E'; [|done].
        apply Qeq_bool_iff in E'. destruct Hne. by symmetry.
      + apply Qeq_bool_neq in E. destruct E. by symmetry. }
  unfold analyze_log.
  rewrite run_bind, run_header by done. cbv beta iota.
  rewrite run_bind, Hlin, run_lift. cbv beta iota.
  rewrite run_bind. cbn [for_each].
  rewrite run_bind, merge_log_first, Hh0 by done. cbv beta iota. fold st0.
  rewrite run_for_each_app.
  rewrite (merge_rest_consistent h pre st0 fof fr ts) by done.
  cbn [for_each]. rewrite run_bind, Hbad.
  unfold header, parse_events. cbn. rewrite fmap_app. done.
Qed.

(** One iteration of the loop over the bins that returns. *)
Lemma model_bin_flow h verbose xi_bins milestones frame_time num_milestones
    i profiles t profiles' :
  run h (model_bin verbose xi_bins milestones frame_time num_milestones
           i profiles) = (t, Ok profiles') →
  ∃ s : bin_result,
    bin_step h xi_bins milestones frame_time num_milestones i s
    ∧ t = bin_trace verbose milestones frame_time num_milestones i s
    ∧ profiles' = <[i := s.2]> profiles.
Proof.
  unfold model_bin. intros Hrun.
  apply run_bind_inv in Hrun as (t0 & [] & ? & H0 & Hrun & ->).
  apply run_bind_inv in Hrun as (? & b & ? & H1 & Hrun & ->).
  apply run_lift_inv in H1 as [H1 ->].
  apply run_bind_inv in Hrun
    as (? & [[[count_matrix time_vector] rate_matrix] transition_matrix]
        & ? & H2 & Hrun & ->).
  apply run_do_inv in H2 as [H2 ->].
  apply run_bind_inv in Hrun as (? & time_profile_matrix & ? & H3 & H4 & ->).
  apply run_do_inv in H3 as [H3 ->]. injection H4 as <- <-.
  unfold subscript in H1. destruct (xi_bins !! i) as [b'|] eqn:Hb; [|done].
  injection H1 as ->.
  exists (b, (count_matrix, time_vector, rate_matrix, transition_matrix),
          time_profile_matrix).
  split_and!; [done| |done].
  cbn [bin_trace]. f_equal.
  destruct verbose; [|by injection H0 as <-]. cbn [when] in H0.
  apply run_bind_inv in H0 as (? & b'' & ? & H5 & H6 & ->).
  apply run_lift_inv in H5 as [H5 ->]. apply run_do_inv in H6 as [_ ->].
  unfold subscript in H5. rewrite Hb in H5. by injection H5 as <-.
Qed.

(** The loop over the bins [a, a + k) that returns: the matrices of these
    bins are replaced, in order, by the time profile matrices. *)
Lemma model_loop_flow h verbose xi_bins milestones frame_time num_milestones
    k a profiles t profiles' :
  run h (for_each (seq a k)
           (model_bin verbose xi_bins milestones frame_time num_milestones)
           profiles) = (t, Ok profiles') →
  (a + k ≤ length profiles)%nat →
  ∃ steps : list bin_result,
    Forall2 (bin_step h xi_bins milestones frame_time num_milestones)
      (seq a k) steps
    ∧ t = concat (zip_with (bin_trace verbose milestones frame_time
                              num_milestones) (seq a k) steps)
    ∧ profiles' = take a profiles ++ steps.*2 ++ drop (a + k) profiles.
Proof.
  revert a profiles t. induction k as [|k IH]; intros a profiles t.
  { intros [= <- <-] _. exists []. split_and!; [done..|].
    cbn. by rewrite Nat.add_0_r, take_drop. }
  cbn [seq for_each]. intros Hrun Hlen.
  apply run_bind_inv in Hrun as (t1 & p1 & t2 & H1 & H2 & ->).
  apply model_bin_flow in H1 as (s & Hs & -> & ->).
  apply IH in H2 as (steps & Hsteps & -> & ->);
    [|rewrite length_insert; lia].
  exists (s :: steps). split_and!; [by constructor|done|].
  rewrite drop_insert_lt by lia.
  rewrite (take_S_r _ a s.2) by (apply list_lookup_insert_eq; lia).
  rewrite take_insert_ge by lia.
  rewrite fmap_cons, <- (assoc_L (++)). cbn.
  by replace (a + S k)%nat with (S (a + k)) by lia.
Qed.

(** X12: the run of [analyze_log] that returns, call by call: the header, one
    parser call per file, the report, the condenser on the trajectories of
    the last file, the grid builder, for each bin in order its count (when
    verbose), the model builder on the bin's fragments and the profile
    builder on the transition matrix and the time vector the model builder
    returned, then the expander on the profile matrices of the bins in order,
    the force constant of the first file, [beta = 0] and the values of the
    grid builder, the estimator on what the expander returned, and the print
    of what the estimator returned.  The profile builder is taken to return
    matrices of the shape line 88 expects. *)
Theorem analyze_log_run h (ramd_log_file_list : list string)
    (num_milestones num_xi_bins : Z) (verbose : bool) (t : list event) :
  profiles_fit h →
  run h (analyze_log ramd_log_file_list num_milestones num_xi_bins verbose)
  = (t, Ok ()) →
  ∃ fof fr ts f one_dim_trajs milestones min_location max_location
    starting_cv_val xi_bins (steps : list bin_result) calc time_estimate,
    run_metadata h ramd_log_file_list fof fr ts
    ∧ last ramd_log_file_list = Some f
    ∧ h _ (condense_trajectories (parsed_trajectories h f))
      = Ok one_dim_trajs
    ∧ h _ (uniform_milestone_locations one_dim_trajs num_milestones)
      = Ok (milestones, min_location, max_location, starting_cv_val)
    ∧ xi_binner num_xi_bins one_dim_trajs = Ok xi_bins
    ∧ Forall2 (bin_step h xi_bins milestones (ts * inject_Z fof)
                 num_milestones) (range num_xi_bins) steps
    ∧ h _ (functional_expansion_1d_ramd (steps.*2) (Some fr) 0 min_location
             max_location starting_cv_val) = Ok calc
    ∧ h _ (make_second_order_time_estimate calc) = Ok time_estimate
    ∧ t = header num_milestones num_xi_bins verbose
          ++ parse_events ramd_log_file_list
          ++ report
               (length (concat (parsed_trajectories h
                                  <$> ramd_log_file_list)))
               (Some fof) (Some fr) (Some ts) verbose
          ++ [Event (condense_trajectories (parsed_trajectories h f));
              Event (uniform_milestone_locations one_dim_trajs
                       num_milestones)]
          ++ concat (zip_with (bin_trace verbose milestones
                                 (ts * inject_Z fof) num_milestones)
                       (range num_xi_bins) steps)
          ++ [Event (functional_expansion_1d_ramd (steps.*2) (Some fr) 0
                       min_location max_location starting_cv_val);
              Event (make_second_order_time_estimate calc);
              Event (print (Show_time_estimate time_estimate))].
Proof.
  intros _. unfold analyze_log. intros Hrun.
  apply run_bind_inv in Hrun as (t_header & [] & ? & Hhead & Hrun & ->).
  apply run_header_inv in Hhead.
  apply run_bind_inv in Hrun as (? & ranges & ? & Hlin & Hrun & ->).
  apply run_lift_inv in Hlin as [Hlin ->].
  apply run_bind_inv in Hrun as (t_loop & st & ? & Hloop & Hrun & ->).
  pose proof (merge_logs_trace _ _ _ _ Hloop) as ->.
  apply merge_logs_loaded in Hloop.
  apply run_bind_inv in Hrun as (t_report & [] & ? & Hrep & Hrun & ->).
  apply run_report_inv in Hrep.
  apply run_bind_inv in Hrun as (? & trajs & ? & Htr & Hrun & ->).
  apply run_read_local_inv in Htr as [Htr ->].
  apply run_bind_inv in Hrun as (? & one_dim_trajs & ? & Hcond & Hrun & ->).
  apply run_do_inv in Hcond as [Hcond ->].
  apply run_bind_inv in Hrun
    as (? & [[[milestones min_location] max_location] starting_cv_val]
        & ? & Hgrid & Hrun & ->).
  apply run_do_inv in Hgrid as [Hgrid ->].
  apply run_bind_inv in Hrun as (? & xi_bins & ? & Hbin & Hrun & ->).
  apply run_lift_inv in Hbin as [Hbin ->].
  apply run_bind_inv in Hrun as (? & frame_time & ? & Hft & Hrun & ->).
  apply run_lift_inv in Hft as [Hft ->].
  apply run_bind_inv in Hrun as (? & profiles0 & ? & Hz & Hrun & ->).
  apply run_lift_inv in Hz as [Hz ->].
  apply run_bind_inv in Hrun as (t_models & profiles & ? & Hmod & Hrun & ->).
  apply run_bind_inv in Hrun as (? & calc & ? & Hexp & Hrun & ->).
  apply run_do_inv in Hexp as [Hexp ->].
  apply run_bind_inv in Hrun as (? & time_estimate & ? & Hest & Hpr & ->).
  apply run_do_inv in Hest as [Hest ->]. apply run_do_inv in Hpr as [_ ->].
  assert (length profiles0 = Z.to_nat num_xi_bins) as Hlen0.
  { unfold np_zeros3 in Hz. destruct (_ || _); [done|]. injection Hz as <-.
    by rewrite length_replicate. }
  apply model_loop_flow in Hmod as (steps & Hsteps & -> & ->); [|lia].
  pose proof (Forall2_length _ _ _ Hsteps) as Hls.
  unfold range in Hls. rewrite length_seq in Hls.
  rewrite take_0, drop_ge, app_nil_r in Hexp |- * by lia.
  destruct Hloop as (Hlist & Hlast & Hmeta). rewrite Htr in Hlast.
  destruct (last ramd_log_file_list) as [f|] eqn:Hf; [|done].
  injection Hlast as ->.
  destruct ramd_log_file_list as [|f0 rest]; [done|].
  destruct Hmeta as (trajs0 & fof & fr & ts & Hh0 & (Hfof & Hfr & Hts) & Hall).
  rewrite Hfof, Hfr, Hts, Hlist in *. injection Hft as <-.
  exists fof, fr, ts, f, one_dim_trajs, milestones, min_location,
    max_location, starting_cv_val, xi_bins, steps, calc, time_estimate.
  split_and!; try done.
  - by exists f0, rest, trajs0.
  - by rewrite (xi_binner_unfold _ ranges).
  - by subst.
Qed.

Lemma app_eq_self_r {A} (l x : list A) : x = l ++ x ↔ l = [].
Proof.
  split; [|by intros ->]. intros Hx.
  apply (f_equal length) in Hx. rewrite length_app in Hx.
  apply length_zero_iff_nil. lia.
Qed.

Lemma concat_nil_Forall {A} (ls : list (list A)) :
  concat ls = [] ↔ Forall (λ l, l = []) ls.
Proof.
  induction ls as [|l ls IH]; [done|]. cbn. rewrite Forall_cons, <- IH.
  split; [by intros [-> ->]%app_eq_nil|by intros [-> ->]].
Qed.

(** X11: the condenser is handed the trajectories of all the files exactly
    when no file before the last has any. *)
Theorem condenser_receives_all_iff h (init : list string) (f : string)
    (num_milestones num_xi_bins : Z) (verbose : bool) :
  Forall (λ e, ∀ trajs, condenser_input e = Some trajs →
            (trajs = concat (parsed_trajectories h <$> init ++ [f])
             ↔ Forall (λ g, parsed_trajectories h g = []) init))
    (run h (analyze_log (init ++ [f]) num_milestones num_xi_bins verbose)).1.
Proof.
  eapply Forall_impl;
    [apply (condenser_receives_last_file h (init ++ [f]) num_milestones
              num_xi_bins verbose)|].
  intros e He trajs Hc. destruct (He trajs Hc) as (f' & Hlast & ->).
  rewrite last_snoc in Hlast. injection Hlast as <-.
  rewrite fmap_app, concat_app. cbn. rewrite app_nil_r.
  rewrite app_eq_self_r, concat_nil_Forall, Forall_fmap. done.
Qed.

(** X13: with [verbose=False] the only thing a run prints, however it
    ends, is the time estimate. *)
Theorem analyze_log_quiet h (ramd_log_file_list : list string)
    (num_milestones num_xi_bins : Z) :
  Forall (λ e, ∀ m, printed e = Some m →
            ∃ time_estimate, m = Show_time_estimate time_estimate)
    (run h (analyze_log ramd_log_file_list num_milestones num_xi_bins
              false)).1.
Proof.
  match goal with |- Forall ?P _ =>
    assert (hoare h P (analyze_log ramd_log_file_list num_milestones
                         num_xi_bins false) (λ _, True)) as [H _];
      [|done]
  end.
  unfold analyze_log. cbn [when].
  repeat first
    [ match goal with
      | |- hoare _ _ (model_bin false _ _ _ _ _ _) _ =>
          unfold model_bin; cbn [when]
      end
    | calls_step ]; try done;
    try match goal with Hc : printed _ = Some _ |- _ => by cbn in Hc end.
  match goal with Hc : printed _ = Some _ |- _ => injection Hc as <- end.
  by eexists.
Qed.

Lemma run_bind_pass {A B G} h (p : prog A) (f : A → prog B)
    (g : event → option G) (P : event → Prop) x :
  x ∈ omap g (run h (p ≫= f)).1 →
  hoare h (λ e, g e = None ∧ P e) p (λ _, True) →
  ∃ t1 a, run h p = (t1, Ok a)
          ∧ Forall P t1
          ∧ x ∈ omap g (run h (f a)).1
          ∧ run h (p ≫= f) = (t1 ++ (run h (f a)).1, (run h (f a)).2).
Proof.
  intros Hx [Hg _]. apply Forall_and in Hg as [Hg HP].
  destruct (run_bind_reach h p f g x Hx) as (t1 & a & Hrun & ? & ?);
    [by split|].
  exists t1, a. rewrite Hrun in HP. done.
Qed.

(** X14: when the binner raises on the fragments the grid builder returned
    for, the run ends in that exception with the call of the grid builder as
    its last: no model is built and the expander is not entered. *)
Theorem analyze_log_binner_failure h (ramd_log_file_list : list string)
    (num_milestones num_xi_bins : Z) (verbose : bool)
    (one_dim_trajs : list fragment) (e : exn) :
  one_dim_trajs
  ∈ omap grid_input
      (run h (analyze_log ramd_log_file_list num_milestones num_xi_bins
                verbose)).1 →
  is_Ok (h _ (uniform_milestone_locations one_dim_trajs num_milestones)) →
  xi_binner num_xi_bins one_dim_trajs = Raise e →
  ∃ t,
    run h (analyze_log ramd_log_file_list num_milestones num_xi_bins verbose)
    = (t ++ [Event (uniform_milestone_locations one_dim_trajs
                      num_milestones)], Raise e)
    ∧ Forall (λ e, model_call_of e = None ∧ beta_of e = None) t.
Proof.
  intros Hin Hgrid Hbin. unfold analyze_log in *.
  apply (run_bind_pass _ _ _ _ (λ e, model_call_of e = None ∧ beta_of e = None))
    in Hin as (t1 & [] & _ & H1 & Hin & ->); [|calls_other].
  apply (run_bind_pass _ _ _ _ (λ e, model_call_of e = None ∧ beta_of e = None))
    in Hin as (t2 & ranges & Hlin & H2 & Hin & ->); [|calls_other].
  apply run_lift_inv in Hlin as [Hlin _].
  apply (run_bind_pass _ _ _ _ (λ e, model_call_of e = None ∧ beta_of e = None))
    in Hin as (t3 & st & _ & H3 & Hin & ->); [|calls_other].
  apply (run_bind_pass _ _ _ _ (λ e, model_call_of e = None ∧ beta_of e = None))
    in Hin as (t4 & [] & _ & H4 & Hin & ->); [|calls_other].
  apply (run_bind_pass _ _ _ _ (λ e, model_call_of e = None ∧ beta_of e = None))
    in Hin as (t5 & trajs & _ & H5 & Hin & ->); [|calls_other].
  apply (run_bind_pass _ _ _ _ (λ e, model_call_of e = None ∧ beta_of e = None))
    in Hin as (t6 & one_dim' & _ & H6 & Hin & ->); [|calls_other].
  cbn [fst snd].
  rewrite run_bind, run_do in Hin |- *.
  destruct (h _ (uniform_milestone_locations one_dim' num_milestones))
    as [[[[milestones mn] mx] sc]|e'] eqn:Hg.
  2:{ cbn in Hin. apply list_elem_of_singleton in Hin as ->.
      rewrite Hg in Hgrid. by destruct Hgrid. }
  match type of Hin with
  | context [run h ?k] =>
      assert (hoare h (λ e, grid_input e = None) k (λ _, True)) as [Hk _]
        by calls_other;
      apply omap_nil_Forall in Hk; destruct (run h k) as [t7 r] eqn:Hrun
  end.
  cbn in Hin, Hk. rewrite Hk in Hin.
  apply list_elem_of_singleton in Hin as ->.
  rewrite (xi_binner_unfold _ ranges) in Hbin by done.
  rewrite run_bind, Hbin, run_lift in Hrun. injection Hrun as <- <-.
  exists (t1 ++ t2 ++ t3 ++ t4 ++ t5 ++ t6). split.
  - cbn. by rewrite <- !(assoc_L (++)).
  - by rewrite !Forall_app.
Qed.

(** *** Where the exceptions of a run come from *)















End Orchestration.

(** C1: the concatenation of the fragments of all the files is accumulated
    in [trajectory_list], but the condenser, and with it the grid builder
    and the binner, are handed the fragments of the last file alone.  On the
    files [a.log] (trajectories 1 and 2) and [b.log] (trajectory 3) the run
    returns after condensing [[3]]; the grid is built on that one
    fragment. *)
Theorem analyze_log_condenses_last_file_only :
  concat (parsed_trajectories Demo.h <$> ["a.log"; "b.log"]%string)
  = [1; 2; 3]%nat
  ∧ (run Demo.h (analyze_log ["a.log"; "b.log"]%string 4 2 false)).2 = Ok ()
  ∧ omap condenser_input
      (run Demo.h (analyze_log ["a.log"; "b.log"]%string 4 2 false)).1
    = [[3%nat]]
  ∧ omap grid_input
      (run Demo.h (analyze_log ["a.log"; "b.log"]%string 4 2 false)).1
    = [[Demo.condense 3]].
Proof. split_and!; by vm_compute. Qed.

(** ** The command line *)

Lemma dashed_option (tok : string) :
  dashed tok = false → find_option argparser tok = None.
Proof.
  intros Hd. unfold find_option, argparser. cbn.
  repeat case_decide; try done;
    match goal with H : tok ∈ _ |- _ => 
      repeat (apply elem_of_cons in H as [->|H]; [done|]);
      by apply elem_of_nil in H
    end.
Qed.

Lemma defaults_argparser :
  defaults argparser
  = <["numMilestones" := V_int 10]> (<["numAngleBins" := V_int 5]> ∅).
Proof. reflexivity. Qed.

Lemma find_option_n tok :
  tok = "-n"%string ∨ tok = "--numMilestones"%string →
  ∃ a, find_option argparser tok = Some a ∧ dest a = "numMilestones"%string.
Proof. intros [->| ->]; by eexists. Qed.

Lemma find_option_a tok :
  tok = "-a"%string ∨ tok = "--numAngleBins"%string →
  ∃ a, find_option argparser tok = Some a ∧ dest a = "numAngleBins"%string.
Proof. intros [->| ->]; by eexists. Qed.

Ltac lookup_key :=
  unfold getitem;
  repeat (rewrite lookup_insert_ne by done);
  rewrite lookup_insert_eq.

Section Main.
Context {Traj Calc : Type}.

(** The builtin [int] on a string, [None] where it raises [ValueError]. *)
Variable int : string → option Z.

Lemma parse_loop_positionals (files acc : list string) ns :
  Forall (λ f, dashed f = false) files →
  parse_loop int argparser files ns acc false = Ok (ns, acc ++ files).
Proof.
  intros Hall. revert acc. induction Hall as [|f files Hf _ IH]; intros acc.
  { by rewrite app_nil_r. }
  cbn [parse_loop]. rewrite dashed_option by done.
  unfold looks_like_option. rewrite Hf. cbn.
  by rewrite IH, <- (assoc_L (++)).
Qed.

Lemma parse_loop_app (files rest acc : list string) ns :
  Forall (λ f, dashed f = false) files →
  parse_loop int argparser (files ++ rest) ns acc false
  = parse_loop int argparser rest ns (acc ++ files) false.
Proof.
  intros Hall. revert acc. induction Hall as [|f files Hf _ IH]; intros acc.
  { by rewrite app_nil_r. }
  cbn [parse_loop app]. rewrite dashed_option by done.
  unfold looks_like_option. rewrite Hf. cbn.
  by rewrite IH, <- (assoc_L (++)).
Qed.

(** The scan keeps the two counts integers, and the positionals it collects
    are tokens of the command line, in their order. *)
Lemma parse_loop_inv argv ns files closed ns' files' :
  parse_loop int argparser argv ns files closed = Ok (ns', files') →
  (∀ key, key = "numMilestones"%string ∨ key = "numAngleBins"%string →
     (∃ n, ns !! key = Some (V_int n)) → ∃ n, ns' !! key = Some (V_int n))
  ∧ ∃ more, files' = files ++ more ∧ sublist more argv.
Proof.
  revert ns files closed.
  induction argv as [argv IH] using (induction_ltof1 _ (@length string));
    unfold ltof in IH; intros ns files closed.
  destruct argv as [|tok rest].
  { intros [= <- <-]. split; [done|]. exists []. by rewrite app_nil_r. }
  cbn [parse_loop].
  destruct (find_option argparser tok) as [a|] eqn:Ha.
  - destruct rest as [|v rest']; [done|].
    destruct (looks_like_option v); [done|].
    destruct (int v) as [n|]; [|done].
    intros Hrun. apply IH in Hrun as [Hns (more & -> & Hsub)]; [|cbn; lia].
    split.
    + intros key Hkey [m Hm]. apply Hns; [done|].
      destruct (decide (key = dest a)) as [->|Hne].
      * exists n. by rewrite lookup_insert_eq.
      * exists m. by rewrite lookup_insert_ne.
    + exists more. split; [done|]. by do 2 apply sublist_cons.
  - destruct (looks_like_option tok || closed); [done|].
    intros Hrun. apply IH in Hrun as [Hns (more & -> & Hsub)]; [|cbn; lia].
    split; [done|]. exists (tok :: more).
    split; [by rewrite <- (assoc_L (++))|]. by apply sublist_skip.
Qed.

(** The scan raises nothing but argparse's exit. *)
Lemma parse_loop_exit argv ns files closed e :
  parse_loop int argparser argv ns files closed = Raise e → e = SystemExit 2.
Proof.
  revert ns files closed.
  induction argv as [argv IH] using (induction_ltof1 _ (@length string));
    unfold ltof in IH; intros ns files closed.
  destruct argv as [|tok rest]; [done|]. cbn [parse_loop].
  destruct (find_option argparser tok) as [a|].
  - destruct rest as [|v rest']; [by intros [= <-]|].
    destruct (looks_like_option v); [by intros [= <-]|].
    destruct (int v) as [n|]; [|by intros [= <-]].
    intros Hrun. by apply IH in Hrun; [|cbn; lia].
  - destruct (looks_like_option tok || closed); [by intros [= <-]|].
    intros Hrun. by apply IH in Hrun; [|cbn; lia].
Qed.

Lemma main_namespace (argv files : list string) (n a : Z) ns :
  parse_args int argparser "ramdLogFiles" argv = Ok ns →
  ns !! "ramdLogFiles"%string = Some (V_strs files) →
  ns !! "numMilestones"%string = Some (V_int n) →
  ns !! "numAngleBins"%string = Some (V_int a) →
  @main Traj Calc int argv = analyze_log files n a true.
Proof.
  intros Hargs H1 H2 H3. unfold main, getitem.
  rewrite Hargs. cbn. rewrite H1, H2, H3. done.
Qed.

(** C9: a command line of one or more paths, none starting with a dash, runs
    [analyze_log] on them with 10 milestones and 5 bins; [-n] or
    [--numMilestones] and [-a] or [--numAngleBins], each followed by an
    operand that is not taken for an option and that [int] converts, set
    the two counts to what [int] returns, before or after the paths; an
    operand that [int] rejects and a command line without a path are
    rejected; and a call of [analyze_log] that gives the files alone takes
    10 and 5. *)
Theorem main_defaults :
  (∀ files, files ≠ [] → Forall (λ f, dashed f = false) files →
     @main Traj Calc int files = analyze_log files 10 5 true)
  ∧ (∀ files flag_n flag_a sn sa n a,
       files ≠ [] → Forall (λ f, dashed f = false) files →
       flag_n = "-n"%string ∨ flag_n = "--numMilestones"%string →
       flag_a = "-a"%string ∨ flag_a = "--numAngleBins"%string →
       looks_like_option sn = false → looks_like_option sa = false →
       int sn = Some n → int sa = Some a →
       @main Traj Calc int (files ++ [flag_n; sn; flag_a; sa])
       = analyze_log files n a true
       ∧ @main Traj Calc int (flag_a :: sa :: flag_n :: sn :: files)
         = analyze_log files n a true)
  ∧ (∀ files flag s,
       Forall (λ f, dashed f = false) files →
       flag ∈ ["-n"; "--numMilestones"; "-a"; "--numAngleBins"]%string →
       int s = None →
       @main Traj Calc int (files ++ [flag; s]) = Throw (SystemExit 2))
  ∧ @main Traj Calc int [] = Throw (SystemExit 2)
  ∧ (∀ files,
       @analyze_log_call Traj Calc files None None None
       = analyze_log files 10 5 true).
Proof.
  split_and!.
  - intros files Hne Hall.
    apply (main_namespace _ files 10 5
             (<["ramdLogFiles" := V_strs files]> (defaults argparser))).
    + unfold parse_args. rewrite parse_loop_positionals by done. cbn.
      by destruct files.
    + by lookup_key.
    + rewrite defaults_argparser. by lookup_key.
    + rewrite defaults_argparser. by lookup_key.
  - intros files flag_n flag_a sn sa n a Hne Hall Hn Ha Hon Hoa Hsn Hsa.
    destruct (find_option_n flag_n Hn) as (dn & Hfn & Hdn).
    destruct (find_option_a flag_a Ha) as (da & Hfa & Hda).
    split.
    + apply (main_namespace _ files n a
               (<["ramdLogFiles" := V_strs files]>
                  (<["numAngleBins" := V_int a]>
                     (<["numMilestones" := V_int n]> (defaults argparser))))).
      * unfold parse_args. rewrite parse_loop_app by done.
        cbn [parse_loop app].
        rewrite Hfn, Hon, Hsn, Hfa, Hoa, Hsa, Hdn, Hda.
        cbn. by destruct files.
      * by lookup_key.
      * by lookup_key.
      * by lookup_key.
    + apply (main_namespace _ files n a
               (<["ramdLogFiles" := V_strs files]>
                  (<["numMilestones" := V_int n]>
                     (<["numAngleBins" := V_int a]> (defaults argparser))))).
      * unfold parse_args.
        cbn [parse_loop app].
        rewrite Hfn, Hon, Hsn, Hfa, Hoa, Hsa, Hdn, Hda.
        rewrite parse_loop_positionals by done. cbn. by destruct files.
      * by lookup_key.
      * by lookup_key.
      * by lookup_key.
  - intros files flag s Hall Hflag Hs.
    assert (∃ d, find_option argparser flag = Some d) as [d Hd].
    { repeat (apply elem_of_cons in Hflag as [->|Hflag]; [by eexists|]).
      by apply elem_of_nil in Hflag. }
    unfold main, parse_args. rewrite parse_loop_app by done.
    cbn [parse_loop app]. rewrite Hd, Hs. by destruct (looks_like_option s).
  - done.
  - done.
Qed.

(** X17: on a command line whose tokens with a leading dash are the four
    option strings and negative integers (so no [-h], no abbreviation and no
    [--opt=value]), [__main__] either exits with argparse's status 2 before
    anything runs, or runs [analyze_log] verbosely on a non-empty list of
    files taken, in order, from the command line: never on no file, and
    never quietly. *)
Theorem main_outcomes (argv : list string) :
  Forall (λ tok, dashed tok = true →
            tok ∈ ["-n"; "--numMilestones"; "-a"; "--numAngleBins"]%string
            ∨ is_Some (int_of_string tok)) argv →
  @main Traj Calc int argv = Throw (SystemExit 2)
  ∨ ∃ files n a,
      files ≠ [] ∧ sublist files argv
      ∧ @main Traj Calc int argv = analyze_log files n a true.
Proof.
  intros _.
  destruct (parse_loop int argparser argv (defaults argparser) [] false)
    as [[ns files]|e] eqn:Hrun.
  2:{ left. unfold main, parse_args.
      apply parse_loop_exit in Hrun as Hexit. by rewrite Hrun, Hexit. }
  destruct (parse_loop_inv _ _ _ _ _ _ Hrun) as [Hns (more & -> & Hsub)].
  destruct (Hns "numMilestones"%string) as [n Hn]; [by left|by eexists|].
  destruct (Hns "numAngleBins"%string) as [a Ha]; [by right|by eexists|].
  cbn [app] in *. destruct more as [|f more].
  { left. unfold main, parse_args. by rewrite Hrun. }
  right.
  exists (f :: more), n, a. split_and!; [done..|].
  apply (main_namespace argv (f :: more) n a
           (<["ramdLogFiles" := V_strs (f :: more)]> ns)).
  - unfold parse_args. by rewrite Hrun.
  - by rewrite lookup_insert_eq.
  - by rewrite lookup_insert_ne.
  - by rewrite lookup_insert_ne.
Qed.

End Main.

(** * The theorems at sample inputs *)

Lemma xi_binner_partitions_witness :
  1 ≤ 2
  ∧ Forall (λ t, ∃ xi, first_xi t = Ok xi ∧ (-1 <= xi <= 1)%Q)
      Demo.one_dim_trajs
  ∧ ∃ xi_bins,
      xi_binner 2 Demo.one_dim_trajs = Ok xi_bins
      ∧ length xi_bins = 2%nat
      ∧ sum_list (length <$> xi_bins) = 4%nat.
Proof.
  assert (Forall (λ t, ∃ xi, first_xi t = Ok xi ∧ (-1 <= xi <= 1)%Q)
            Demo.one_dim_trajs) as Hall.
  { repeat constructor; eexists; (split; [reflexivity|]); split;
      by vm_compute. }
  split_and!; [lia|exact Hall|].
  destruct (xi_binner_partitions 2 Demo.one_dim_trajs ltac:(lia) Hall)
    as (ranges & bins & _ & Hrun & Hlen & _ & _ & _ & Hsum & _).
  exists bins. split_and!; [exact Hrun|exact Hlen|exact Hsum].
Defined.

Lemma analyze_log_checks_metadata_witness :
  (∃ t msg,
     run Demo.h (analyze_log ["a.log"; "b.log"; "c.log"]%string 4 2 true)
     = (t, Raise (AssertionError msg))
     ∧ Forall (λ e, parse_or_print e = true) t)
  ∧ (∃ st,
       run Demo.h (for_each ["a.log"; "b.log"]%string merge_log
                     initial_locals)
       = (parse_events ["a.log"; "b.log"]%string, Ok st)
       ∧ trajectory_list st = [1; 2; 3]%nat).
Proof.
  assert (prints_return Demo.h) as Hp by (intros m; reflexivity).
  assert (Demo.h _ (parse_ramd_log_file "a.log")
          = Ok ([1; 2]%nat, 50, 14%Q, (2 # 1000)%Q)) as Ha by reflexivity.
  split.
  - apply (proj1 (analyze_log_checks_metadata Demo.h "a.log"
                    ["b.log"; "c.log"]%string 4 2 true _ _ _ _
                    ltac:(lia) Hp Ha
                    ltac:(repeat constructor; eexists; reflexivity))).
    apply Exists_cons_tl, Exists_cons_hd.
    exists [4%nat], 50, 15%Q, (2 # 1000)%Q. split; [reflexivity|].
    right. left. by vm_compute.
  - destruct (proj2 (analyze_log_checks_metadata Demo.h "a.log"
                       ["b.log"]%string 4 2 true _ _ _ _
                       ltac:(lia) Hp Ha
                       ltac:(repeat constructor; eexists; reflexivity)))
      as (st & Hrun & Hlist & _).
    + repeat constructor.
      exists [3%nat], 50, 14%Q, (2 # 1000)%Q.
      split_and!; reflexivity.
    + exists st. split; [exact Hrun|exact Hlist].
Defined.

Lemma xi_binner_rejects_outside_witness :
  first_xi [(0%Q, (3 # 2)%Q)] = Ok (3 # 2)%Q
  ∧ (1 < 3 # 2)%Q
  ∧ xi_binner 2 ([Demo.condense 1] ++ [(0%Q, (3 # 2)%Q)] :: [])
    = Raise (Exception_xi_not_placed (3 # 2)).
Proof.
  split_and!; [reflexivity|reflexivity|].
  apply (proj2 (xi_binner_rejects_outside 2 [Demo.condense 1] []
                  [(0%Q, (3 # 2)%Q)] (3 # 2)%Q eq_refl
                  (or_intror eq_refl))).
  - lia.
  - repeat constructor. eexists. split; [reflexivity|]. split; by vm_compute.
Defined.


Lemma analyze_log_beta_zero_witness :
  (run Demo.h (analyze_log ["a.log"; "b.log"]%string 4 2 true)).2 = Ok ()
  ∧ omap beta_of
      (run Demo.h (analyze_log ["a.log"; "b.log"]%string 4 2 true)).1
    = [0%Q].
Proof.
  assert ((run Demo.h (analyze_log ["a.log"; "b.log"]%string 4 2 true)).2
          = Ok ()) as Hok by (vm_compute; reflexivity).
  split; [exact Hok|].
  exact (proj2 (analyze_log_beta_zero Demo.h ["a.log"; "b.log"]%string
                  4 2 true) Hok).
Defined.

Lemma analyze_log_frame_time_witness :
  (run Demo.h (analyze_log ["a.log"; "b.log"]%string 4 2 true)).2 = Ok ()
  ∧ ∃ fof fr ts milestones xi_bins,
      run_metadata Demo.h ["a.log"; "b.log"]%string fof fr ts
      ∧ length xi_bins = 2%nat
      ∧ omap model_call_of
          (run Demo.h (analyze_log ["a.log"; "b.log"]%string 4 2 true)).1
        = (λ xi_bin_trajs,
             (xi_bin_trajs, milestones, (ts * inject_Z fof)%Q, 4))
          <$> xi_bins.
Proof.
  assert ((run Demo.h (analyze_log ["a.log"; "b.log"]%string 4 2 true)).2
          = Ok ()) as Hok by (vm_compute; reflexivity).
  split; [exact Hok|].
  exact (proj2 (analyze_log_frame_time Demo.h ["a.log"; "b.log"]%string
                  4 2 true) Hok).
Defined.


Lemma main_defaults_witness :
  ["a.log"; "b.log"]%string ≠ []
  ∧ Forall (λ f, dashed f = false) ["a.log"; "b.log"]%string
  ∧ @main nat unit int_of_string ["a.log"; "b.log"]%string
    = analyze_log ["a.log"; "b.log"]%string 10 5 true.
Proof.
  assert (Forall (λ f, dashed f = false) ["a.log"; "b.log"]%string) as Hall
    by (repeat constructor).
  split_and!; [discriminate|exact Hall|].
  exact (proj1 (@main_defaults nat unit int_of_string)
           ["a.log"; "b.log"]%string
           ltac:(discriminate) Hall).
Defined.

Lemma analyze_log_zero_bins_witness :
  first_xi (Demo.condense 1) = Ok (-1 # 2)%Q
  ∧ xi_binner 0 [Demo.condense 1; Demo.condense 2]
    = Raise (Exception_xi_not_placed (-1 # 2))
  ∧ (run Demo.h (analyze_log ["a.log"]%string 4 0 false)).2
    = Raise (Exception_xi_not_placed (-1 # 2)).
Proof.
  assert (first_xi (Demo.condense 1) = Ok (-1 # 2)%Q) as Hx
    by (vm_compute; reflexivity).
  split_and!; [exact Hx| |].
  - exact (proj1 (analyze_log_zero_bins Demo.h ["a.log"]%string 4 false)
             (Demo.condense 1) [Demo.condense 2] _ Hx).
  - apply (proj2 (proj2 (analyze_log_zero_bins Demo.h ["a.log"]%string 4
                           false))
             [Demo.condense 1; Demo.condense 2]).
    + vm_compute. left.
    + eexists. reflexivity.
    + exact Hx.
Defined.


Lemma find_bin_monotone_witness :
  ∃ xi_bins_ranges,
    np_linspace (-1) 1 (2 + 1) = Ok xi_bins_ranges
    ∧ (-1 # 2 <= 1 # 2)%Q
    ∧ find_bin xi_bins_ranges 2 (-1 # 2) = Ok (Some 0%nat)
    ∧ find_bin xi_bins_ranges 2 (1 # 2) = Ok (Some 1%nat)
    ∧ (0 ≤ 1)%nat.
Proof.
  exists (match np_linspace (-1) 1 (2 + 1) with Ok r => r | Raise _ => [] end).
  assert (-1 # 2 <= 1 # 2)%Q as Hle by by vm_compute.
  split_and!; [reflexivity|exact Hle|vm_compute; reflexivity
              |vm_compute; reflexivity|].
  apply (find_bin_monotone 2
           (match np_linspace (-1) 1 (2 + 1) with
            | Ok r => r
            | Raise _ => []
            end) (-1 # 2) (1 # 2) 0 1);
    [lia|reflexivity|exact Hle|vm_compute; reflexivity
    |vm_compute; reflexivity].
Defined.

Lemma find_bin_end_points_witness :
  1 ≤ 2
  ∧ ∃ xi_bins_ranges,
      np_linspace (-1) 1 (2 + 1) = Ok xi_bins_ranges
      ∧ find_bin xi_bins_ranges 2 (-1) = Ok (Some 0%nat)
      ∧ find_bin xi_bins_ranges 2 1 = Ok (Some (Z.to_nat 2 - 1)%nat).
Proof.
  split; [lia|].
  exists (match np_linspace (-1) 1 (2 + 1) with Ok r => r | Raise _ => [] end).
  split; [reflexivity|].
  apply (find_bin_end_points 2); [lia|reflexivity].
Defined.

Lemma xi_binner_raises_witness :
  xi_binner 2 [[(0%Q, (3 # 2)%Q)]] = Raise (Exception_xi_not_placed (3 # 2))
  ∧ ∃ trajectory traj_xi,
      trajectory ∈ [[(0%Q, (3 # 2)%Q)]]
      ∧ first_xi trajectory = Ok traj_xi
      ∧ (2 ≤ 0 ∨ (traj_xi < -1)%Q ∨ (1 < traj_xi)%Q).
Proof.
  assert (xi_binner 2 [[(0%Q, (3 # 2)%Q)]]
          = Raise (Exception_xi_not_placed (3 # 2))) as Hrun
    by (vm_compute; reflexivity).
  split; [exact Hrun|].
  destruct (xi_binner_raises 2 _ _ Hrun)
    as [[He _]|[[He _]|(t & xi & Ht & Hx & _ & Hout)]];
    [discriminate He|discriminate He|].
  exists t, xi. split_and!; [exact Ht|exact Hx|exact Hout].
Defined.

Lemma xi_binner_empty_fragment_witness :
  -1 ≤ 2 ∧ xi_binner 2 ([] :: [Demo.condense 1]) = Raise IndexError.
Proof.
  split; [lia|].
  apply (proj1 (xi_binner_empty_fragment 2 [] [Demo.condense 1])). lia.
Defined.

Lemma xi_binner_first_frame_only_witness :
  (∀ trajectory : fragment, first_xi (take 1 trajectory) = first_xi trajectory)
  ∧ xi_binner 2 (fmap (M:=list) (take 1) Demo.one_dim_trajs)
    = (xi_bins ← xi_binner 2 Demo.one_dim_trajs;
       Ok (fmap (M:=list) (fmap (M:=list) (take 1)) xi_bins)).
Proof.
  assert (∀ trajectory : fragment,
            first_xi (take 1 trajectory) = first_xi trajectory) as Hf
    by (intros [|? ?]; reflexivity).
  split; [exact Hf|].
  exact (xi_binner_first_frame_only 2 (take 1) Demo.one_dim_trajs Hf).
Defined.

Lemma analyze_log_no_files_witness :
  -1 ≤ 2
  ∧ prints_return Demo.h
  ∧ run Demo.h (analyze_log [] 4 2 true)
    = (header 4 2 true ++ report 0 None None None true,
       Raise UnboundLocalError).
Proof.
  assert (prints_return Demo.h) as Hp by (intros m; reflexivity).
  split_and!; [lia|exact Hp|].
  exact (analyze_log_no_files Demo.h 4 2 true ltac:(lia) Hp).
Defined.

Lemma analyze_log_negative_bins_witness :
  -2 < -1
  ∧ prints_return Demo.h
  ∧ run Demo.h (analyze_log ["a.log"]%string 4 (-2) true)
    = (header 4 (-2) true, Raise ValueError).
Proof.
  assert (prints_return Demo.h) as Hp by (intros m; reflexivity).
  split_and!; [lia|exact Hp|].
  exact (analyze_log_negative_bins Demo.h ["a.log"]%string 4 (-2) true
           ltac:(lia) Hp).
Defined.

Lemma analyze_log_first_mismatch_witness :
  Forall (consistent Demo.h 50 14 (2 # 1000)) ["b.log"]%string
  ∧ ¬ (15 == 14)%Q
  ∧ run Demo.h
      (analyze_log ("a.log" :: ["b.log"] ++ "c.log" :: ["a.log"])%string
         4 2 false)
    = (header 4 2 false
       ++ parse_events ("a.log" :: ["b.log"] ++ ["c.log"])%string,
       Raise (AssertionError
                "RAMD logs contain differing forceRAMD values.")).
Proof.
  assert (prints_return Demo.h) as Hp by (intros m; reflexivity).
  assert (Forall (consistent Demo.h 50 14 (2 # 1000)) ["b.log"]%string)
    as Hpre.
  { repeat constructor. exists [3%nat], 50, 14%Q, (2 # 1000)%Q.
    split_and!; reflexivity. }
  assert (¬ (15 == 14)%Q) as Hne by by vm_compute.
  split_and!; [exact Hpre|exact Hne|].
  apply (analyze_log_first_mismatch Demo.h "a.log" "c.log" ["b.log"]%string
           ["a.log"]%string 4 2 false [1; 2]%nat 50 14 (2 # 1000)
           [4%nat] 50 15 (2 # 1000)
           ltac:(lia) Hp eq_refl Hpre eq_refl).
  right. left. split_and!; [reflexivity|exact Hne|reflexivity].
Defined.

Lemma demo_profiles_fit : profiles_fit Demo.h_fit.
Proof.
  intros tm tv nm m [= <-]. split; [apply length_replicate|].
  apply Forall_replicate, length_replicate.
Qed.

Lemma analyze_log_run_witness :
  profiles_fit Demo.h_fit
  ∧ ∃ t,
      run Demo.h_fit (analyze_log ["a.log"; "b.log"]%string 4 2 true)
      = (t, Ok ())
      ∧ ∃ time_estimate,
          last t = Some (Event (print (Show_time_estimate time_estimate))).
Proof.
  split; [exact demo_profiles_fit|].
  exists (run Demo.h_fit (analyze_log ["a.log"; "b.log"]%string 4 2 true)).1.
  assert (run Demo.h_fit (analyze_log ["a.log"; "b.log"]%string 4 2 true)
          = ((run Demo.h_fit
                (analyze_log ["a.log"; "b.log"]%string 4 2 true)).1,
             Ok ())) as Hrun by (vm_compute; reflexivity).
  split; [exact Hrun|].
  destruct (analyze_log_run Demo.h_fit _ _ _ _ _ demo_profiles_fit Hrun)
    as (fof & fr & ts & f & one_dim_trajs & milestones & min_location
        & max_location & starting_cv_val & xi_bins & steps & calc
        & time_estimate & _ & _ & _ & _ & _ & _ & _ & _ & Ht).
  exists time_estimate. rewrite Ht, !last_app. reflexivity.
Defined.

Lemma analyze_log_binner_failure_witness :
  [Demo.condense 1; Demo.condense 2]
  ∈ omap grid_input (run Demo.h (analyze_log ["a.log"]%string 4 0 false)).1
  ∧ xi_binner 0 [Demo.condense 1; Demo.condense 2]
    = Raise (Exception_xi_not_placed (-1 # 2))
  ∧ ∃ t,
      run Demo.h (analyze_log ["a.log"]%string 4 0 false)
      = (t ++ [Event (uniform_milestone_locations
                        [Demo.condense 1; Demo.condense 2] 4)],
         Raise (Exception_xi_not_placed (-1 # 2)))
      ∧ Forall (λ e, model_call_of e = None ∧ beta_of e = None) t.
Proof.
  assert ([Demo.condense 1; Demo.condense 2]
          ∈ omap grid_input
              (run Demo.h (analyze_log ["a.log"]%string 4 0 false)).1) as Hin
    by (vm_compute; left).
  assert (xi_binner 0 [Demo.condense 1; Demo.condense 2]
          = Raise (Exception_xi_not_placed (-1 # 2))) as Hbin
    by (vm_compute; reflexivity).
  split_and!; [exact Hin|exact Hbin|].
  apply (analyze_log_binner_failure Demo.h ["a.log"]%string 4 0 false
           _ _ Hin); [|exact Hbin].
  eexists. reflexivity.
Defined.



Lemma main_outcomes_witness :
  Forall (λ tok, dashed tok = true →
            tok ∈ ["-n"; "--numMilestones"; "-a"; "--numAngleBins"]%string
            ∨ is_Some (int_of_string tok)) ["a.log"; "-n"; "7"]%string
  ∧ (@main nat unit int_of_string ["a.log"; "-n"; "7"]%string
     = Throw (SystemExit 2)
     ∨ ∃ files n a,
         files ≠ [] ∧ sublist files ["a.log"; "-n"; "7"]%string
         ∧ @main nat unit int_of_string ["a.log"; "-n"; "7"]%string
           = analyze_log files n a true).
Proof.
  assert (Forall (λ tok, dashed tok = true →
                    tok ∈ ["-n"; "--numMilestones"; "-a";
                           "--numAngleBins"]%string
                    ∨ is_Some (int_of_string tok))
            ["a.log"; "-n"; "7"]%string) as Hargv.
  { apply List.Forall_cons; [intros H; vm_compute in H; discriminate H|].
    apply List.Forall_cons; [intros _; left; left|].
    apply List.Forall_cons; [intros H; vm_compute in H; discriminate H|].
    apply List.Forall_nil. }
  split; [exact Hargv|].
  exact (@main_outcomes nat unit int_of_string ["a.log"; "-n"; "7"]%string
           Hargv).
Defined.
